(** * Synthetic module records: instantiation, export cells and evaluation

    A shallow embedding of [src/objects/synthetic-module.cc]
    (SetExport, SetExportStrict, ResolveExport, PrepareInstantiate,
    FinishInstantiate, Evaluate) over an explicit isolate state, and the
    properties of these operations. *)

From stdpp Require Import gmap strings list fin_maps.

Local Open Scope Z_scope.
Local Open Scope nat_scope.

(** ** The object model *)

(** Heap addresses.  Cells, promises and modules live in separate spaces of
    the isolate's heap; an address is an index into the space of its kind. *)
Abbreviation Address := nat.

(** Modelled from the spec: [Module::Status] (src/objects/module.h is not
    among the sources).  The states of the linkage/evaluation machine, in
    their order. *)
Inductive Status : Set :=
| kUnlinked | kLinking | kLinked | kEvaluating | kEvaluated | kErrored.

Definition status_rank (s : Status) : nat :=
  match s with
  | kUnlinked => 0 | kLinking => 1 | kLinked => 2
  | kEvaluating => 3 | kEvaluated => 4 | kErrored => 5
  end.

(** The two message templates this file raises, and the error constructors
    they are raised with. *)
Inductive MessageTemplate : Set := kModuleExportUndefined | kUnresolvableExport.
Inductive ErrorConstructor : Set := ReferenceError | SyntaxError.

(** Tagged values.  [CellRef] and [JSPromiseRef] are references: two of
    them denote the same heap object exactly when their addresses agree. *)
Inductive Object : Set :=
| Undefined
| TheHole
| Smi (n : Z)
| Str (s : string)
| CellRef (a : Address)
| JSPromiseRef (a : Address)
| JSError (ctor : ErrorConstructor) (tmpl : MessageTemplate) (args : list string).

#[global] Instance Status_eq_dec : EqDecision Status.
Proof. solve_decision. Defined.
#[global] Instance MessageTemplate_eq_dec : EqDecision MessageTemplate.
Proof. solve_decision. Defined.
#[global] Instance ErrorConstructor_eq_dec : EqDecision ErrorConstructor.
Proof. solve_decision. Defined.
#[global] Instance Object_eq_dec : EqDecision Object.
Proof. solve_decision. Defined.

Definition IsCell (o : Object) : bool :=
  match o with CellRef _ => true | _ => false end.
Definition IsJSPromise (o : Object) : bool :=
  match o with JSPromiseRef _ => true | _ => false end.
Definition IsTheHole (o : Object) : bool :=
  match o with TheHole => true | _ => false end.

(** Modelled from the spec: the result capability (src/objects/js-promise.h
    is not among the sources): pending, or settled with a value. *)
Inductive PromiseState : Set :=
| Pending
| Fulfilled (v : Object)
| Rejected (v : Object).

(** Modelled from the spec: [ObjectHashTable] (src/objects/hash-table.h is
    not among the sources): a unique-key mapping whose [Lookup] answers the
    hole for an absent key. *)
Definition Lookup (table : gmap string Object) (key : string) : Object :=
  default TheHole (table !! key).
(** Modelled from the spec: [ObjectHashTable::Put]: the table with [key]
    mapped to [value]. *)
Definition Put (table : gmap string Object) (key : string) (value : Object)
  : gmap string Object := <[key := value]> table.

(** The fields of a synthetic module record that the operations read or
    write.  [evaluation_steps] is the foreign address of the host
    procedure. *)
Record SyntheticModule : Type := mkModule {
  export_names : list string;
  exports : gmap string Object;
  status : Status;
  exception : Object;
  top_level_capability : Object;
  evaluation_steps : Address
}.

Record MessageLocation : Set := mkLocation { start_pos : Z; end_pos : Z }.

(** A journal of the stores made to module fields; it is ghost state that
    only counts writes and is never read by the operations. *)
Inductive Store : Set :=
| StoreStatus (m : Address) (s : Status)
| StoreExports (m : Address)
| StoreException (m : Address) (e : Object)
| StoreCapability (m : Address) (cap : Object).

#[global] Instance Store_eq_dec : EqDecision Store.
Proof. solve_decision. Defined.

Record Isolate : Type := mkIsolate {
  cells : list Object;
  promises : list PromiseState;
  modules : list SyntheticModule;
  native_context : Address;
  scheduled_exception : Object;
  pending_exception : Object;
  pending_location : option MessageLocation;
  journal : list Store
}.

(** ** Computations over the isolate

    An operation either returns a value and a new isolate state, or the
    process dies (a failed CHECK, or a handle that designates nothing). *)
Inductive Fatal : Set := CheckFailed | InvalidHandle.

Inductive Outcome (A : Type) : Type :=
| Ok (a : A) (iso : Isolate)
| Abort (why : Fatal).
Arguments Ok {A} a iso.
Arguments Abort {A} why.

Definition Run (A : Type) : Type := Isolate -> Outcome A.

#[global] Instance Run_ret : MRet Run := fun A a iso => Ok a iso.
#[global] Instance Run_bind : MBind Run := fun A B k c iso =>
  match c iso with
  | Ok a iso' => k a iso'
  | Abort why => Abort why
  end.

Definition modify (f : Isolate -> Isolate) : Run unit := fun iso => Ok tt (f iso).

Definition FATAL {A : Type} (why : Fatal) : Run A := fun _ => Abort why.
Definition CHECK (b : bool) : Run unit :=
  if b then mret tt else FATAL CheckFailed.

Definition with_cells (f : list Object -> list Object) (iso : Isolate) : Isolate :=
  mkIsolate (f (cells iso)) (promises iso) (modules iso) (native_context iso)
            (scheduled_exception iso) (pending_exception iso)
            (pending_location iso) (journal iso).
Definition with_promises (f : list PromiseState -> list PromiseState)
    (iso : Isolate) : Isolate :=
  mkIsolate (cells iso) (f (promises iso)) (modules iso) (native_context iso)
            (scheduled_exception iso) (pending_exception iso)
            (pending_location iso) (journal iso).
Definition store_module (m : Address) (M : SyntheticModule) (ev : Store)
    (iso : Isolate) : Isolate :=
  mkIsolate (cells iso) (promises iso) (<[m := M]> (modules iso))
            (native_context iso) (scheduled_exception iso)
            (pending_exception iso) (pending_location iso)
            (journal iso ++ [ev]).
Definition with_pending (e : Object) (loc : option MessageLocation)
    (iso : Isolate) : Isolate :=
  mkIsolate (cells iso) (promises iso) (modules iso) (native_context iso)
            (scheduled_exception iso) e loc (journal iso).
Definition with_scheduled (e : Object) (iso : Isolate) : Isolate :=
  mkIsolate (cells iso) (promises iso) (modules iso) (native_context iso)
            e (pending_exception iso) (pending_location iso) (journal iso).

(** Dereferencing a module handle. *)
Definition module_at (m : Address) : Run SyntheticModule := fun iso =>
  match modules iso !! m with
  | Some M => Ok M iso
  | None => Abort InvalidHandle
  end.

(** Field setters of the module record. *)
Definition set_status (s : Status) (M : SyntheticModule) : SyntheticModule :=
  mkModule (export_names M) (exports M) s (exception M)
           (top_level_capability M) (evaluation_steps M).
Definition set_exports_field (t : gmap string Object) (M : SyntheticModule)
  : SyntheticModule :=
  mkModule (export_names M) t (status M) (exception M)
           (top_level_capability M) (evaluation_steps M).
Definition set_exception (e : Object) (M : SyntheticModule) : SyntheticModule :=
  mkModule (export_names M) (exports M) (status M) e
           (top_level_capability M) (evaluation_steps M).
Definition set_capability_field (cap : Object) (M : SyntheticModule)
  : SyntheticModule :=
  mkModule (export_names M) (exports M) (status M) (exception M)
           cap (evaluation_steps M).

(** A store to one field of the module record at handle [m]. *)
Definition update_module (m : Address) (f : SyntheticModule -> SyntheticModule)
    (ev : Store) : Run unit :=
  M ← module_at m;
  modify (store_module m (f M) ev).

Definition set_exports (m : Address) (t : gmap string Object) : Run unit :=
  update_module m (set_exports_field t) (StoreExports m).

Definition set_top_level_capability (m : Address) (cap : Object) : Run unit :=
  update_module m (set_capability_field cap) (StoreCapability m cap).

(** Modelled from the spec: [Module::SetStatus] (src/objects/module.cc is
    not among the sources): a store to the status field. *)
Definition SetStatus (m : Address) (s : Status) : Run unit :=
  update_module m (set_status s) (StoreStatus m s).

(** Modelled from the spec: [Module::RecordError] (src/objects/module.cc is
    not among the sources): the module enters [kErrored] and the error value
    is recorded on it. *)
Definition RecordError (m : Address) (error : Object) : Run unit :=
  update_module m (set_status kErrored) (StoreStatus m kErrored);;
  update_module m (set_exception error) (StoreException m error).

(** Modelled from the spec: the value/storage collaborator
    (src/objects/cell.h and the factory are not among the sources):
    [NewCell] allocates a Cell holding undefined, [set_value] overwrites the
    slot of an allocated Cell. *)
Definition NewCell : Run Address := fun iso =>
  Ok (length (cells iso)) (with_cells (fun cs => cs ++ [Undefined]) iso).

(** [Cell::cast]: the Cell a tagged value refers to. *)
Definition Cell_cast (o : Object) : Run Address :=
  match o with
  | CellRef c => mret c
  | _ => FATAL CheckFailed
  end.

(** Modelled from the spec: [Cell::set_value], the store to the slot of an
    allocated Cell. *)
Definition Cell_set_value (c : Address) (v : Object) : Run unit := fun iso =>
  if decide (c < length (cells iso))
  then Ok tt (with_cells (fun cs => <[c := v]> cs) iso)
  else Abort InvalidHandle.

(** Modelled from the spec: the result capability engine
    (src/objects/js-promise.cc is not among the sources): construction of a
    new pending capability. *)
Definition NewJSPromise : Run Address := fun iso =>
  Ok (length (promises iso)) (with_promises (fun ps => ps ++ [Pending]) iso).

(** Modelled from the spec: [JSPromise::Resolve], resolution of a
    capability with a value.  A pending promise becomes fulfilled with the
    value; when the value is itself a capability the promise stays pending
    (its settlement belongs to the microtask collaborator); a settled
    promise is left as it is. *)
Definition JSPromise_Resolve (p : Address) (resolution : Object)
  : Run (option Object) := fun iso =>
  match promises iso !! p with
  | Some Pending =>
      if IsJSPromise resolution then Ok (Some Undefined) iso
      else Ok (Some Undefined)
              (with_promises (fun ps => <[p := Fulfilled resolution]> ps) iso)
  | Some _ => Ok (Some Undefined) iso
  | None => Abort InvalidHandle
  end.

(** [MaybeHandle::ToHandleChecked] and [Maybe::FromJust]: the value, or
    death on the empty case. *)
Definition ToHandleChecked {A : Type} (r : option A) : Run A :=
  match r with
  | Some a => mret a
  | None => FATAL CheckFailed
  end.

Definition FromJust {A : Type} (r : option A) : Run A :=
  match r with
  | Some a => mret a
  | None => FATAL CheckFailed
  end.

(** Modelled from the spec: the diagnostics collaborator (the factory and
    src/execution/isolate.cc are not among the sources): an error object
    carries its constructor, its message template and the arguments. *)
Definition NewReferenceError (tmpl : MessageTemplate) (arg0 : string) : Object :=
  JSError ReferenceError tmpl [arg0].
Definition NewSyntaxError (tmpl : MessageTemplate) (arg0 arg1 : string) : Object :=
  JSError SyntaxError tmpl [arg0; arg1].

(** Modelled from the spec: [Isolate::Throw] and [Isolate::ThrowAt] make an
    error the pending exception of the isolate, the latter at a location and
    with the empty handle for answer. *)
Definition Throw (e : Object) : Run unit := modify (with_pending e None).
Definition ThrowAt {A : Type} (e : Object) (loc : MessageLocation)
  : Run (option A) := fun iso =>
  Ok None (with_pending e (Some loc) iso).
(** Modelled from the spec: [Isolate::PromoteScheduledException] moves the
    exception a host callback scheduled into the pending slot. *)
Definition PromoteScheduledException : Run unit :=
  modify (fun iso => with_pending (scheduled_exception iso) None
                                  (with_scheduled TheHole iso)).
Definition get_pending_exception : Run Object := fun iso =>
  Ok (pending_exception iso) iso.
Definition get_native_context : Run Address := fun iso =>
  Ok (native_context iso) iso.

(** ** The operations of synthetic-module.cc *)

(** [SyntheticModule::SetExport] (lines 21-38). *)
Definition SetExport (module : Address) (export_name : string)
    (export_value : Object) : Run (option bool) :=
  M ← module_at module;
  let exports := exports M in
  let export_object := Lookup exports export_name in
  if negb (IsCell export_object) then
    Throw (NewReferenceError kModuleExportUndefined export_name);;
    mret None
  else
    c ← Cell_cast export_object;
    Cell_set_value c export_value;;
    mret (Some true).

(** [SyntheticModule::SetExportStrict] (lines 40-50). *)
Definition SetExportStrict (module : Address) (export_name : string)
    (export_value : Object) : Run unit :=
  M ← module_at module;
  let exports := exports M in
  let export_object := Lookup exports export_name in
  CHECK (IsCell export_object);;
  set_export_result ← SetExport module export_name export_value;
  b ← FromJust set_export_result;
  CHECK b.

(** [SyntheticModule::ResolveExport] (lines 54-67). *)
Definition ResolveExport (module : Address) (module_specifier export_name : string)
    (loc : MessageLocation) (must_resolve : bool) : Run (option Address) :=
  M ← module_at module;
  let object := Lookup (exports M) export_name in
  if IsCell object then c ← Cell_cast object; mret (Some c)
  else if negb must_resolve then mret None
  else ThrowAt (NewSyntaxError kUnresolvableExport module_specifier export_name)
               loc.

(** The body of the loop of PrepareInstantiate, over the export names that
    remain; [exports] is the local handle the loop reassigns. *)
Fixpoint PrepareInstantiate_loop (names : list string)
    (exports : gmap string Object) : Run (gmap string Object) :=
  match names with
  | [] => mret exports
  | name :: rest =>
      cell ← NewCell;
      CHECK (IsTheHole (Lookup exports name));;
      PrepareInstantiate_loop rest (Put exports name (CellRef cell))
  end.

(** [SyntheticModule::PrepareInstantiate] (lines 71-87). *)
Definition PrepareInstantiate (module : Address) (context : Address) : Run bool :=
  M ← module_at module;
  let exports := exports M in
  let export_names := export_names M in
  exports ← PrepareInstantiate_loop export_names exports;
  set_exports module exports;;
  mret true.

(** [SyntheticModule::FinishInstantiate] (lines 92-96). *)
Definition FinishInstantiate (module : Address) : Run bool :=
  SetStatus module kLinked;;
  mret true.

(** The host evaluation procedure: called with the native context and the
    module, it answers a value, or nothing after scheduling an exception. *)
Definition EvaluationSteps : Type := Address -> Address -> Run (option Object).

Section Evaluation.

(** The code found at a foreign address. *)
Variable FUNCTION_CAST : Address -> EvaluationSteps.

(** [SyntheticModule::Evaluate] (lines 100-136). *)
Definition Evaluate (module : Address) : Run (option Object) :=
  SetStatus module kEvaluating;;
  M ← module_at module;
  let evaluation_steps := FUNCTION_CAST (evaluation_steps M) in
  context ← get_native_context;
  result ← evaluation_steps context module;
  match result with
  | None =>
      PromoteScheduledException;;
      e ← get_pending_exception;
      RecordError module e;;
      mret None
  | Some result =>
      SetStatus module kEvaluated;;
      let result_from_callback := result in
      capability ←
        (if IsJSPromise result_from_callback then mret result_from_callback
         else
           capability ← NewJSPromise;
           r ← JSPromise_Resolve capability Undefined;
           ToHandleChecked r;;
           mret (JSPromiseRef capability));
      set_top_level_capability module capability;;
      mret (Some result_from_callback)
  end.

End Evaluation.

(** ** Sequences of calls

    The operations as data, so that properties can quantify over whatever
    is done to a module later in its life. *)
Inductive Call : Type :=
| CallSetExport (module : Address) (export_name : string) (export_value : Object)
| CallSetExportStrict (module : Address) (export_name : string)
                      (export_value : Object)
| CallResolveExport (module : Address) (module_specifier export_name : string)
                    (loc : MessageLocation) (must_resolve : bool)
| CallPrepareInstantiate (module context : Address)
| CallFinishInstantiate (module : Address)
| CallEvaluate (module : Address).

Definition discard {A : Type} (c : Run A) : Run unit := c;; mret tt.

Definition perform (F : Address -> EvaluationSteps) (c : Call) : Run unit :=
  match c with
  | CallSetExport m name v => discard (SetExport m name v)
  | CallSetExportStrict m name v => SetExportStrict m name v
  | CallResolveExport m spec name loc must =>
      discard (ResolveExport m spec name loc must)
  | CallPrepareInstantiate m ctx => discard (PrepareInstantiate m ctx)
  | CallFinishInstantiate m => discard (FinishInstantiate m)
  | CallEvaluate m => discard (Evaluate F m)
  end.

Fixpoint perform_all (F : Address -> EvaluationSteps) (cs : list Call)
  : Run unit :=
  match cs with
  | [] => mret tt
  | c :: cs => perform F c;; perform_all F cs
  end.

(** Calls that break the once-per-module contract on module [m]. *)
Definition reinstantiates (m : Address) (c : Call) : bool :=
  match c with
  | CallPrepareInstantiate m' _ => bool_decide (m' = m)
  | _ => false
  end.
Definition reevaluates (m : Address) (c : Call) : bool :=
  match c with
  | CallEvaluate m' => bool_decide (m' = m)
  | _ => false
  end.

(** ** Vocabulary of the statements *)

(** [c], whenever it returns, relates the state it started in to the state
    it left. *)
Definition preserves {A : Type} (R : relation Isolate) (c : Run A) : Prop :=
  forall iso a iso', c iso = Ok a iso' -> R iso iso'.

(** The module at [m] is still there and stands in relation [P] to what it
    was. *)
Definition module_evolves (P : relation SyntheticModule) (m : Address)
    (iso iso' : Isolate) : Prop :=
  forall M, modules iso !! m = Some M ->
            exists M', modules iso' !! m = Some M' /\ P M M'.

Definition same_bindings (M M' : SyntheticModule) : Prop :=
  export_names M' = export_names M /\ exports M' = exports M.
Definition same_capability (M M' : SyntheticModule) : Prop :=
  top_level_capability M' = top_level_capability M.

(** Host code that leaves the [P]-relevant fields of every module alone. *)
Definition host_respects (P : relation SyntheticModule)
    (F : Address -> EvaluationSteps) : Prop :=
  forall a ctx m' m, preserves (module_evolves P m) (F a ctx m').

(** Everything outside the module space is untouched. *)
Definition same_heap (iso iso' : Isolate) : Prop :=
  cells iso' = cells iso /\ promises iso' = promises iso /\
  native_context iso' = native_context iso /\
  scheduled_exception iso' = scheduled_exception iso /\
  pending_exception iso' = pending_exception iso /\
  pending_location iso' = pending_location iso.

(** The call Evaluate makes to the host procedure of module [m] from state
    [iso]: the procedure answers [r] and leaves state [iso2]. *)
Definition host_run (F : Address -> EvaluationSteps) (m : Address)
    (iso : Isolate) (r : option Object) (iso2 : Isolate) : Prop :=
  exists iso1 M1,
    SetStatus m kEvaluating iso = Ok tt iso1 /\
    modules iso1 !! m = Some M1 /\
    F (evaluation_steps M1) (native_context iso1) m iso1 = Ok r iso2.

(** The cell bound to each declared name once instantiation is done: the
    [i]-th name gets the [i]-th cell allocated. *)
Definition bound_in_order (names : list string) (base : Address)
    (table : gmap string Object) : Prop :=
  forall i name, names !! i = Some name ->
                 table !! name = Some (CellRef (base + i)).

(** ** Concrete modules and host procedures *)

(** The state of a run that returned, if it did, and its answer. *)
Definition final {A : Type} (o : Outcome A) : option Isolate :=
  match o with Ok _ iso => Some iso | Abort _ => None end.
Definition answer {A : Type} (o : Outcome A) : option A :=
  match o with Ok a _ => Some a | Abort _ => None end.
Definition after {A : Type} (c : Run A) (iso : Isolate) : Isolate :=
  default iso (final (c iso)).

(** The settlement of the top-level capability of the module at [m]. *)
Definition capability_state (iso : Isolate) (m : Address) : option PromiseState :=
  match modules iso !! m with
  | Some M =>
      match top_level_capability M with
      | JSPromiseRef p => promises iso !! p
      | _ => None
      end
  | None => None
  end.

Definition no_exception_isolate (ms : list SyntheticModule) : Isolate :=
  mkIsolate [] [] ms 0 TheHole TheHole None [].

Definition fresh_module (names : list string) (steps : Address) : SyntheticModule :=
  mkModule names ∅ kUnlinked TheHole Undefined steps.

(** Scenario A: the host binds export a to 42 and answers 7. *)
Definition steps_set_a_return_7 : EvaluationSteps := fun context module =>
  SetExportStrict module "a" (Smi 42);;
  mret (Some (Smi 7)).

(** Scenario B: the host throws boom. *)
Definition steps_throw_boom : EvaluationSteps := fun context module =>
  modify (with_scheduled (Str "boom"));;
  mret None.

(** Scenario C: the host answers a pending promise it made. *)
Definition steps_return_promise : EvaluationSteps := fun context module =>
  p ← NewJSPromise;
  mret (Some (JSPromiseRef p)).

Definition host_table : Address -> EvaluationSteps := fun a =>
  match a with
  | 0 => steps_set_a_return_7
  | 1 => steps_throw_boom
  | _ => steps_return_promise
  end.

(** Three modules declaring exports a and b, one per scenario. *)
Definition module_ab : SyntheticModule := fresh_module ["a"; "b"]%string 0.
Definition module_boom : SyntheticModule := fresh_module ["a"; "b"]%string 1.
Definition module_promise : SyntheticModule := fresh_module ["a"; "b"]%string 2.
Definition isolate_ab : Isolate :=
  no_exception_isolate [module_ab; module_boom; module_promise].

Definition instantiate (m : Address) : Run unit :=
  PrepareInstantiate m 0;; FinishInstantiate m;; mret tt.

Definition linked_ab : Isolate :=
  after (instantiate 2) (after (instantiate 1) (after (instantiate 0) isolate_ab)).

Definition here : MessageLocation := mkLocation 0 0.

(** The state in which the host procedure of module [m] hands control back
    to Evaluate, when Evaluate is called in [iso]. *)
Definition state_after_host (F : Address -> EvaluationSteps) (m : Address)
    (iso : Isolate) : Isolate :=
  after (M ← module_at m; F (evaluation_steps M) (native_context iso) m)
        (after (SetStatus m kEvaluating) iso).

(** The module a handle designates, for handles known to be valid. *)
Definition module_of (iso : Isolate) (m : Address) : SyntheticModule :=
  default (fresh_module [] 0) (modules iso !! m).

(** Some calls made after instantiation. *)
Definition later_calls : list Call :=
  [CallFinishInstantiate 0; CallEvaluate 0;
   CallSetExport 0 "b" (Smi 1); CallResolveExport 0 "main" "zzz" here true].

Definition instantiated_ab : Isolate := after (PrepareInstantiate 0 0) isolate_ab.
Definition later_ab : Isolate :=
  after (perform_all host_table later_calls) instantiated_ab.

(** * Turboshaft value representations

    The enum classes of [src/compiler/turboshaft/representations.h] and the
    conversions between them.  A switch arm that is UNREACHABLE answers
    [None]. *)

(** The enumerators of [MachineRepresentation], as the two exhaustive
    switches over it in representations.h list them (its declaration, in
    src/codegen/machine-type.h, is not among the sources). *)
Module MachineRepresentation.

Inductive t : Set :=
| kNone | kBit | kWord8 | kWord16 | kWord32 | kWord64
| kMapWord | kTaggedSigned | kTaggedPointer | kTagged
| kCompressedPointer | kCompressed | kSandboxedPointer
| kFloat32 | kFloat64 | kSimd128 | kSimd256.

#[global] Instance MachineRepresentation_eq_dec : EqDecision t.
Proof. solve_decision. Defined.

End MachineRepresentation.

Module RegisterRepresentation.

Inductive Enum : Set :=
| kWord32 | kWord64 | kFloat32 | kFloat64 | kTagged | kCompressed | kSimd128.

#[global] Instance RegisterRepresentation_eq_dec : EqDecision Enum.
Proof. solve_decision. Defined.

(** The underlying uint8_t of an enumerator: its position in the
    declaration. *)
Definition underlying (rep : Enum) : Z :=
  match rep with
  | kWord32 => 0 | kWord64 => 1 | kFloat32 => 2 | kFloat64 => 3
  | kTagged => 4 | kCompressed => 5 | kSimd128 => 6
  end%Z.

Definition Word32 : Enum := kWord32.
Definition Word64 : Enum := kWord64.
Definition Float32 : Enum := kFloat32.
Definition Float64 : Enum := kFloat64.
Definition Tagged : Enum := kTagged.
Definition Compressed : Enum := kCompressed.
Definition Simd128 : Enum := kSimd128.

Definition PointerSized (kSystemPointerSize : Z) : Enum :=
  if (kSystemPointerSize =? 4)%Z then Word32 else Word64.

Definition IsWord (rep : Enum) : bool :=
  match rep with
  | kWord32 | kWord64 => true
  | kFloat32 | kFloat64 | kTagged | kCompressed | kSimd128 => false
  end.

Definition IsFloat (rep : Enum) : bool :=
  match rep with
  | kFloat32 | kFloat64 => true
  | kWord32 | kWord64 | kTagged | kCompressed | kSimd128 => false
  end.

Definition MaxUnsignedValue (rep : Enum) : option Z :=
  match rep with
  | kWord32 => Some 4294967295%Z
  | kWord64 => Some 18446744073709551615%Z
  | kFloat32 | kFloat64 | kTagged | kCompressed | kSimd128 => None
  end.

Definition machine_representation (rep : Enum) : MachineRepresentation.t :=
  match rep with
  | kWord32 => MachineRepresentation.kWord32
  | kWord64 => MachineRepresentation.kWord64
  | kFloat32 => MachineRepresentation.kFloat32
  | kFloat64 => MachineRepresentation.kFloat64
  | kTagged => MachineRepresentation.kTagged
  | kCompressed => MachineRepresentation.kCompressed
  | kSimd128 => MachineRepresentation.kSimd128
  end.

(** The result is a uint16_t. *)
Definition bit_width (kSystemPointerSize : Z) (rep : Enum) : Z :=
  match rep with
  | kWord32 => 32
  | kWord64 => 64
  | kFloat32 => 32
  | kFloat64 => 64
  | kTagged => kSystemPointerSize mod 65536
  | kCompressed => kSystemPointerSize mod 65536
  | kSimd128 => 128
  end%Z.

Definition FromMachineRepresentation (rep : MachineRepresentation.t)
  : option Enum :=
  match rep with
  | MachineRepresentation.kBit
  | MachineRepresentation.kWord8
  | MachineRepresentation.kWord16
  | MachineRepresentation.kWord32 => Some Word32
  | MachineRepresentation.kWord64 => Some Word64
  | MachineRepresentation.kTaggedSigned
  | MachineRepresentation.kTaggedPointer
  | MachineRepresentation.kTagged => Some Tagged
  | MachineRepresentation.kCompressedPointer
  | MachineRepresentation.kCompressed => Some Compressed
  | MachineRepresentation.kFloat32 => Some Float32
  | MachineRepresentation.kFloat64 => Some Float64
  | MachineRepresentation.kSimd128 => Some Simd128
  | MachineRepresentation.kMapWord
  | MachineRepresentation.kSandboxedPointer
  | MachineRepresentation.kNone
  | MachineRepresentation.kSimd256 => None
  end.

Definition hash_value (rep : Enum) : Z := underlying rep.

(** [MultiSwitch<RegisterRepresentation>]. *)
Definition max_value : Z := 8.
Definition encode (rep : Enum) : Z := underlying rep.

End RegisterRepresentation.

Module WordRepresentation.

(** A word representation is a register representation (the base class);
    its two enumerators have the underlying values of the register ones. *)
Inductive Enum : Set := kWord32 | kWord64.

#[global] Instance WordRepresentation_eq_dec : EqDecision Enum.
Proof. solve_decision. Defined.

Definition underlying (rep : Enum) : Z :=
  match rep with
  | kWord32 => RegisterRepresentation.underlying RegisterRepresentation.kWord32
  | kWord64 => RegisterRepresentation.underlying RegisterRepresentation.kWord64
  end.

(** The base-class part of a word representation. *)
Definition to_register (rep : Enum) : RegisterRepresentation.Enum :=
  match rep with
  | kWord32 => RegisterRepresentation.kWord32
  | kWord64 => RegisterRepresentation.kWord64
  end.

(** The explicit constructor from a register representation: the cast of
    its underlying value, which names an enumerator exactly when the
    DCHECK on IsWord holds. *)
Definition of_register (rep : RegisterRepresentation.Enum) : option Enum :=
  match rep with
  | RegisterRepresentation.kWord32 => Some kWord32
  | RegisterRepresentation.kWord64 => Some kWord64
  | _ => None
  end.

Definition Word32 : Enum := kWord32.
Definition Word64 : Enum := kWord64.

Definition PointerSized (kSystemPointerSize : Z) : option Enum :=
  of_register (RegisterRepresentation.PointerSized kSystemPointerSize).

Definition MaxUnsignedValue (rep : Enum) : Z :=
  match rep with
  | kWord32 => 4294967295
  | kWord64 => 18446744073709551615
  end%Z.

Definition MinSignedValue (rep : Enum) : Z :=
  match rep with
  | kWord32 => -2147483648
  | kWord64 => -9223372036854775808
  end%Z.

Definition MaxSignedValue (rep : Enum) : Z :=
  match rep with
  | kWord32 => 2147483647
  | kWord64 => 9223372036854775807
  end%Z.

End WordRepresentation.

Module MemoryRepresentation.

Inductive Enum : Set :=
| kInt8 | kUint8 | kInt16 | kUint16 | kInt32 | kUint32 | kInt64 | kUint64
| kFloat32 | kFloat64 | kAnyTagged | kTaggedPointer | kTaggedSigned
| kSandboxedPointer | kSimd128.

#[global] Instance MemoryRepresentation_eq_dec : EqDecision Enum.
Proof. solve_decision. Defined.

Definition underlying (rep : Enum) : Z :=
  match rep with
  | kInt8 => 0 | kUint8 => 1 | kInt16 => 2 | kUint16 => 3
  | kInt32 => 4 | kUint32 => 5 | kInt64 => 6 | kUint64 => 7
  | kFloat32 => 8 | kFloat64 => 9 | kAnyTagged => 10
  | kTaggedPointer => 11 | kTaggedSigned => 12
  | kSandboxedPointer => 13 | kSimd128 => 14
  end%Z.

Definition Int8 : Enum := kInt8.
Definition Uint8 : Enum := kUint8.
Definition Int16 : Enum := kInt16.
Definition Uint16 : Enum := kUint16.
Definition Int32 : Enum := kInt32.
Definition Uint32 : Enum := kUint32.
Definition Int64 : Enum := kInt64.
Definition Uint64 : Enum := kUint64.
Definition Float32 : Enum := kFloat32.
Definition Float64 : Enum := kFloat64.
Definition AnyTagged : Enum := kAnyTagged.
Definition TaggedPointer : Enum := kTaggedPointer.
Definition TaggedSigned : Enum := kTaggedSigned.
Definition SandboxedPointer : Enum := kSandboxedPointer.
Definition Simd128 : Enum := kSimd128.

Definition PointerSized (kSystemPointerSize : Z) : Enum :=
  if (kSystemPointerSize =? 4)%Z then Uint32 else Uint64.

Definition IsWord (rep : Enum) : bool :=
  match rep with
  | kInt8 | kUint8 | kInt16 | kUint16 | kInt32 | kUint32 | kInt64 | kUint64 =>
      true
  | kFloat32 | kFloat64 | kAnyTagged | kTaggedPointer | kTaggedSigned
  | kSandboxedPointer | kSimd128 => false
  end.

Definition IsSigned (rep : Enum) : option bool :=
  match rep with
  | kInt8 | kInt16 | kInt32 | kInt64 => Some true
  | kUint8 | kUint16 | kUint32 | kUint64 => Some false
  | kFloat32 | kFloat64 | kAnyTagged | kTaggedPointer | kTaggedSigned
  | kSandboxedPointer | kSimd128 => None
  end.

Definition IsTagged (rep : Enum) : bool :=
  match rep with
  | kAnyTagged | kTaggedPointer | kTaggedSigned => true
  | kInt8 | kInt16 | kInt32 | kInt64 | kUint8 | kUint16 | kUint32 | kUint64
  | kFloat32 | kFloat64 | kSandboxedPointer | kSimd128 => false
  end.

Definition CanBeTaggedPointer (rep : Enum) : bool :=
  match rep with
  | kAnyTagged | kTaggedPointer => true
  | kTaggedSigned
  | kInt8 | kInt16 | kInt32 | kInt64 | kUint8 | kUint16 | kUint32 | kUint64
  | kFloat32 | kFloat64 | kSandboxedPointer | kSimd128 => false
  end.

Definition ToRegisterRepresentation (rep : Enum) : RegisterRepresentation.Enum :=
  match rep with
  | kInt8 | kUint8 | kInt16 | kUint16 | kInt32 | kUint32 =>
      RegisterRepresentation.Word32
  | kInt64 | kUint64 => RegisterRepresentation.Word64
  | kFloat32 => RegisterRepresentation.Float32
  | kFloat64 => RegisterRepresentation.Float64
  | kAnyTagged | kTaggedPointer | kTaggedSigned => RegisterRepresentation.Tagged
  | kSandboxedPointer => RegisterRepresentation.Word64
  | kSimd128 => RegisterRepresentation.Simd128
  end.

Definition FromRegisterRepresentation (repr : RegisterRepresentation.Enum)
    (is_signed : bool) : option Enum :=
  match repr with
  | RegisterRepresentation.kWord32 => Some (if is_signed then Int32 else Uint32)
  | RegisterRepresentation.kWord64 => Some (if is_signed then Int64 else Uint64)
  | RegisterRepresentation.kFloat32 => Some Float32
  | RegisterRepresentation.kFloat64 => Some Float64
  | RegisterRepresentation.kTagged => Some AnyTagged
  | RegisterRepresentation.kSimd128 => Some Simd128
  | RegisterRepresentation.kCompressed => None
  end.

(** [V8_COMPRESS_POINTERS] is the build flag of the preprocessor test. *)
Definition ToRegisterRepresentationForStore (V8_COMPRESS_POINTERS : bool)
    (rep : Enum) : RegisterRepresentation.Enum :=
  let result := ToRegisterRepresentation rep in
  if V8_COMPRESS_POINTERS
  then if bool_decide (result = RegisterRepresentation.Tagged)
       then RegisterRepresentation.Compressed
       else result
  else result.

Definition FromMachineRepresentation (rep : MachineRepresentation.t)
  : option Enum :=
  match rep with
  | MachineRepresentation.kWord8 => Some Uint8
  | MachineRepresentation.kWord16 => Some Uint16
  | MachineRepresentation.kWord32 => Some Uint32
  | MachineRepresentation.kWord64 => Some Uint64
  | MachineRepresentation.kTaggedSigned => Some TaggedSigned
  | MachineRepresentation.kTaggedPointer => Some TaggedPointer
  | MachineRepresentation.kTagged => Some AnyTagged
  | MachineRepresentation.kFloat32 => Some Float32
  | MachineRepresentation.kFloat64 => Some Float64
  | MachineRepresentation.kSandboxedPointer => Some SandboxedPointer
  | MachineRepresentation.kSimd128 => Some Simd128
  | MachineRepresentation.kNone
  | MachineRepresentation.kMapWord
  | MachineRepresentation.kBit
  | MachineRepresentation.kSimd256
  | MachineRepresentation.kCompressedPointer
  | MachineRepresentation.kCompressed => None
  end.

(** The results are uint8_t; [kTaggedSizeLog2] is a constant of the build. *)
Definition SizeInBytesLog2 (kTaggedSizeLog2 : Z) (rep : Enum) : Z :=
  match rep with
  | kInt8 | kUint8 => 0
  | kInt16 | kUint16 => 1
  | kInt32 | kUint32 | kFloat32 => 2
  | kInt64 | kUint64 | kFloat64 | kSandboxedPointer => 3
  | kAnyTagged | kTaggedPointer | kTaggedSigned => kTaggedSizeLog2 mod 256
  | kSimd128 => 4
  end%Z.

Definition SizeInBytes (kTaggedSizeLog2 : Z) (rep : Enum) : Z :=
  (Z.shiftl 1 (SizeInBytesLog2 kTaggedSizeLog2 rep) mod 256)%Z.

Definition hash_value (rep : Enum) : Z := underlying rep.

End MemoryRepresentation.

(** * Properties *)

(** ** Running the monad *)

Lemma bind_run {A B : Type} (c : Run A) (k : A -> Run B) iso :
  (c ≫= k) iso =
  match c iso with Ok a iso' => k a iso' | Abort why => Abort why end.
Proof. reflexivity. Qed.

Lemma bind_Ok {A B : Type} (c : Run A) (k : A -> Run B) iso a iso' :
  c iso = Ok a iso' -> (c ≫= k) iso = k a iso'.
Proof. intros H. rewrite bind_run, H. reflexivity. Qed.

Lemma bind_Abort {A B : Type} (c : Run A) (k : A -> Run B) iso why :
  c iso = Abort why -> (c ≫= k) iso = Abort why.
Proof. intros H. rewrite bind_run, H. reflexivity. Qed.

Lemma bind_inv {A B : Type} (c : Run A) (k : A -> Run B) iso b iso' :
  (c ≫= k) iso = Ok b iso' ->
  exists a iso1, c iso = Ok a iso1 /\ k a iso1 = Ok b iso'.
Proof.
  rewrite bind_run. destruct (c iso) as [a iso1|why]; [|discriminate].
  intros H. exists a, iso1. split; [reflexivity|exact H].
Qed.

Lemma module_at_run m iso M :
  modules iso !! m = Some M -> module_at m iso = Ok M iso.
Proof. unfold module_at. intros ->. reflexivity. Qed.

Lemma module_at_inv m iso M iso' :
  module_at m iso = Ok M iso' -> iso' = iso /\ modules iso !! m = Some M.
Proof.
  unfold module_at. destruct (modules iso !! m); [|discriminate].
  intros [= -> ->]. split; reflexivity.
Qed.

Lemma update_module_run m f ev iso M :
  modules iso !! m = Some M ->
  update_module m f ev iso = Ok tt (store_module m (f M) ev iso).
Proof.
  intros H. unfold update_module.
  rewrite (bind_Ok _ _ _ _ _ (module_at_run _ _ _ H)). reflexivity.
Qed.

Lemma update_module_inv m f ev iso u iso' :
  update_module m f ev iso = Ok u iso' ->
  exists M, modules iso !! m = Some M /\ iso' = store_module m (f M) ev iso.
Proof.
  unfold update_module. intros H.
  apply bind_inv in H as (M & iso1 & H1 & H2).
  apply module_at_inv in H1 as [-> H1].
  exists M. split; [exact H1|]. unfold modify in H2. congruence.
Qed.

Lemma lookup_store_module_eq m M0 M ev iso :
  modules iso !! m = Some M0 ->
  modules (store_module m M ev iso) !! m = Some M.
Proof.
  intros H. simpl. apply list_lookup_insert_eq. eapply lookup_lt_Some, H.
Qed.

Lemma lookup_store_module_ne m m' M ev iso :
  m <> m' -> modules (store_module m M ev iso) !! m' = modules iso !! m'.
Proof. intros H. simpl. apply list_lookup_insert_ne, H. Qed.

Lemma store_module_same_heap m M ev iso : same_heap iso (store_module m M ev iso).
Proof. repeat split. Qed.

(** ** FinishInstantiate *)

(** C10: FinishInstantiate is unconditional.  Whatever the status of the
    module, it returns true and the only change is that the status field of
    that module becomes Linked: no other field, no other module and nothing
    else in the heap is touched, and there is no precondition check.  In
    particular a module that was further along than Linked is taken back. *)
Theorem FinishInstantiate_unconditional iso m M :
  modules iso !! m = Some M ->
  exists iso',
    FinishInstantiate m iso = Ok true iso' /\
    modules iso' = <[m := set_status kLinked M]> (modules iso) /\
    modules iso' !! m = Some (set_status kLinked M) /\
    status (set_status kLinked M) = kLinked /\
    (forall m', m' <> m -> modules iso' !! m' = modules iso !! m') /\
    same_heap iso iso' /\
    journal iso' = journal iso ++ [StoreStatus m kLinked] /\
    (status_rank kLinked < status_rank (status M) ->
     status_rank (status (set_status kLinked M)) < status_rank (status M)).
Proof.
  intros HM.
  exists (store_module m (set_status kLinked M) (StoreStatus m kLinked) iso).
  split.
  { unfold FinishInstantiate, SetStatus.
    rewrite (bind_Ok _ _ _ _ _ (update_module_run _ _ _ _ _ HM)). reflexivity. }
  split; [reflexivity|].
  split; [eapply lookup_store_module_eq, HM|].
  split; [reflexivity|].
  split; [intros m' Hne; apply lookup_store_module_ne; congruence|].
  split; [apply store_module_same_heap|].
  split; [reflexivity|].
  intros H. exact H.
Qed.

Lemma FinishInstantiate_unconditional_witness :
  modules (no_exception_isolate [set_status kEvaluated module_ab]) !! 0
    = Some (set_status kEvaluated module_ab) /\
  exists iso',
    FinishInstantiate 0 (no_exception_isolate [set_status kEvaluated module_ab])
      = Ok true iso' /\
    (status <$> modules iso' !! 0) = Some kLinked.
Proof.
  split; [reflexivity|].
  destruct (FinishInstantiate_unconditional
              (no_exception_isolate [set_status kEvaluated module_ab]) 0
              (set_status kEvaluated module_ab) eq_refl)
    as (iso' & Hrun & _ & Hm & _).
  exists iso'. split; [exact Hrun|]. rewrite Hm. reflexivity.
Defined.

(** ** SetExport and ResolveExport *)

Lemma ResolveExport_found m spec name loc must iso M c :
  modules iso !! m = Some M ->
  exports M !! name = Some (CellRef c) ->
  ResolveExport m spec name loc must iso = Ok (Some c) iso.
Proof.
  intros HM Hc. unfold ResolveExport.
  rewrite (bind_Ok _ _ _ _ _ (module_at_run _ _ _ HM)).
  unfold Lookup. rewrite Hc. reflexivity.
Qed.

Lemma ResolveExport_missing m spec name loc must iso M :
  modules iso !! m = Some M ->
  IsCell (Lookup (exports M) name) = false ->
  ResolveExport m spec name loc must iso =
  if must
  then Ok None (with_pending
                  (JSError SyntaxError kUnresolvableExport [spec; name])
                  (Some loc) iso)
  else Ok None iso.
Proof.
  intros HM Hc. unfold ResolveExport.
  rewrite (bind_Ok _ _ _ _ _ (module_at_run _ _ _ HM)).
  cbv zeta. rewrite Hc. destruct must; reflexivity.
Qed.

Lemma SetExport_missing m name v iso M :
  modules iso !! m = Some M ->
  IsCell (Lookup (exports M) name) = false ->
  SetExport m name v iso =
  Ok None (with_pending (JSError ReferenceError kModuleExportUndefined [name])
                        None iso).
Proof.
  intros HM Hc. unfold SetExport.
  rewrite (bind_Ok _ _ _ _ _ (module_at_run _ _ _ HM)).
  cbv zeta. rewrite Hc. reflexivity.
Qed.

Lemma SetExport_found m name v iso M c :
  modules iso !! m = Some M ->
  exports M !! name = Some (CellRef c) ->
  c < length (cells iso) ->
  SetExport m name v iso =
  Ok (Some true) (with_cells (fun cs => <[c := v]> cs) iso).
Proof.
  intros HM Hc Hlt. unfold SetExport.
  rewrite (bind_Ok _ _ _ _ _ (module_at_run _ _ _ HM)).
  unfold Lookup. rewrite Hc. simpl.
  rewrite bind_run. simpl. rewrite bind_run. unfold Cell_set_value.
  destruct (decide (c < length (cells iso))); [reflexivity|contradiction].
Qed.

(** C4: SetExport on a name that has no Cell throws the ReferenceError of
    template ModuleExportUndefined to its caller (it becomes the pending
    exception and the call answers Nothing) and changes no Cell, no export
    table and no module; SetExport on a name bound to an allocated Cell
    overwrites the value of that Cell, answers Just(true), raises nothing,
    and a ResolveExport of the same name afterwards finds that same Cell,
    which now holds the written value. *)
Theorem SetExport_spec iso m M name v :
  modules iso !! m = Some M ->
  (IsCell (Lookup (exports M) name) = false ->
   exists iso',
     SetExport m name v iso = Ok None iso' /\
     pending_exception iso' =
       JSError ReferenceError kModuleExportUndefined [name] /\
     cells iso' = cells iso /\
     modules iso' = modules iso /\
     promises iso' = promises iso /\
     journal iso' = journal iso)
  /\
  (forall c, exports M !! name = Some (CellRef c) ->
             c < length (cells iso) ->
   exists iso',
     SetExport m name v iso = Ok (Some true) iso' /\
     cells iso' = <[c := v]> (cells iso) /\
     cells iso' !! c = Some v /\
     (forall c', c' <> c -> cells iso' !! c' = cells iso !! c') /\
     modules iso' = modules iso /\
     pending_exception iso' = pending_exception iso /\
     journal iso' = journal iso /\
     forall spec loc must,
       ResolveExport m spec name loc must iso' = Ok (Some c) iso').
Proof.
  intros HM. split.
  - intros Hc. eexists. split; [apply (SetExport_missing _ _ _ _ _ HM Hc)|].
    repeat split.
  - intros c Hc Hlt. eexists.
    split; [apply (SetExport_found _ _ _ _ _ _ HM Hc Hlt)|].
    split; [reflexivity|].
    split; [simpl; apply list_lookup_insert_eq, Hlt|].
    split; [intros c' Hne; simpl; apply list_lookup_insert_ne; congruence|].
    repeat (split; [reflexivity|]).
    intros spec loc must. eapply ResolveExport_found; [exact HM|exact Hc].
Qed.

(** ** PrepareInstantiate *)

Lemma Lookup_Put_eq t key v : Lookup (Put t key v) key = v.
Proof. unfold Lookup, Put. rewrite lookup_insert_eq. reflexivity. Qed.

Lemma Lookup_Put_ne t key key' v :
  key <> key' -> Lookup (Put t key v) key' = Lookup t key'.
Proof. intros H. unfold Lookup, Put. rewrite lookup_insert_ne; [reflexivity|exact H]. Qed.

Lemma with_cells_app xs ys iso :
  with_cells (fun cs => cs ++ ys) (with_cells (fun cs => cs ++ xs) iso)
  = with_cells (fun cs => cs ++ xs ++ ys) iso.
Proof. unfold with_cells. simpl. rewrite <- app_assoc. reflexivity. Qed.

(** The loop succeeds when the names are pairwise distinct and none has an
    entry yet: it allocates one undefined Cell per name, in order. *)
Lemma PrepareInstantiate_loop_Ok names : forall t iso,
  NoDup names ->
  (forall n, n ∈ names -> Lookup t n = TheHole) ->
  exists t',
    PrepareInstantiate_loop names t iso
    = Ok t' (with_cells (fun cs => cs ++ replicate (length names) Undefined) iso)
    /\ bound_in_order names (length (cells iso)) t'
    /\ (forall k, k ∉ names -> t' !! k = t !! k).
Proof.
  induction names as [|name rest IH]; intros t iso Hnd Hfree.
  - exists t. split; [|split].
    + simpl. unfold mret, Run_ret, with_cells. simpl. rewrite app_nil_r.
      destruct iso; reflexivity.
    + intros i n Hi. rewrite lookup_nil in Hi. discriminate.
    + reflexivity.
  - apply NoDup_cons in Hnd as [Hnotin Hnd].
    set (base := length (cells iso)).
    set (iso1 := with_cells (fun cs => cs ++ [Undefined]) iso).
    destruct (IH (Put t name (CellRef base)) iso1 Hnd) as (t' & Hrun & Hbound & Hframe).
    { intros n Hn. rewrite Lookup_Put_ne.
      - apply Hfree. apply elem_of_cons. right. exact Hn.
      - intros ->. contradiction. }
    exists t'. split; [|split].
    + simpl. rewrite bind_run. simpl. fold base iso1.
      rewrite (Hfree name) by (apply elem_of_cons; left; reflexivity).
      simpl. rewrite bind_run. simpl. rewrite Hrun.
      unfold iso1. rewrite with_cells_app. reflexivity.
    + intros i n Hi. destruct i as [|i]; simpl in Hi.
      * injection Hi as <-. rewrite Nat.add_0_r.
        rewrite (Hframe name Hnotin). apply lookup_insert_eq.
      * specialize (Hbound i n Hi). rewrite Hbound. f_equal. f_equal.
        unfold iso1, base. simpl. rewrite length_app. simpl. lia.
    + intros k Hk. apply not_elem_of_cons in Hk as [Hne Hk].
      rewrite (Hframe k Hk). apply lookup_insert_ne. congruence.
Qed.

(** Otherwise the CHECK of some iteration fails. *)
Lemma PrepareInstantiate_loop_Abort names : forall t iso,
  ~ (NoDup names /\ forall n, n ∈ names -> Lookup t n = TheHole) ->
  PrepareInstantiate_loop names t iso = Abort CheckFailed.
Proof.
  induction names as [|name rest IH]; intros t iso Hbad.
  - exfalso. apply Hbad. split; [constructor|].
    intros n Hn. apply elem_of_nil in Hn. contradiction.
  - simpl. rewrite bind_run. simpl. rewrite bind_run.
    destruct (decide (Lookup t name = TheHole)) as [Hhole|Hentry].
    + rewrite Hhole. simpl. apply IH. intros [Hnd Hfree].
      assert (Hnotin : name ∉ rest).
      { intros Hin. specialize (Hfree name Hin).
        rewrite Lookup_Put_eq in Hfree. discriminate. }
      apply Hbad. split; [apply NoDup_cons; split; assumption|].
      intros n Hn. apply elem_of_cons in Hn as [->|Hn]; [exact Hhole|].
      rewrite <- (Hfree n Hn). symmetry. apply Lookup_Put_ne.
      intros ->. contradiction.
    + destruct (Lookup t name); try reflexivity. contradiction.
Qed.

Lemma PrepareInstantiate_run m ctx iso M :
  modules iso !! m = Some M ->
  PrepareInstantiate m ctx iso =
  match PrepareInstantiate_loop (export_names M) (exports M) iso with
  | Ok t iso1 => Ok true (store_module m (set_exports_field t M) (StoreExports m) iso1)
  | Abort why => Abort why
  end.
Proof.
  intros HM. unfold PrepareInstantiate.
  rewrite (bind_Ok _ _ _ _ _ (module_at_run _ _ _ HM)). cbv zeta.
  rewrite bind_run.
  destruct (PrepareInstantiate_loop (export_names M) (exports M) iso)
    as [t iso1|why] eqn:Hloop; [|reflexivity].
  assert (Hmods : modules iso1 = modules iso).
  { destruct (decide (NoDup (export_names M) /\
                      Forall (fun n => Lookup (exports M) n = TheHole)
                             (export_names M))) as [[Hnd Hfree]|Hbad].
    - rewrite Forall_forall in Hfree.
      destruct (PrepareInstantiate_loop_Ok _ (exports M) iso Hnd Hfree)
        as (t' & Hrun & _).
      rewrite Hrun in Hloop. injection Hloop as _ <-. reflexivity.
    - rewrite PrepareInstantiate_loop_Abort in Hloop; [discriminate|].
      intros [Hnd Hfree]. apply Hbad. split; [exact Hnd|].
      apply Forall_forall. exact Hfree. }
  assert (HM1 : modules iso1 !! m = Some M) by (rewrite Hmods; exact HM).
  unfold set_exports.
  rewrite (bind_Ok _ _ _ _ _ (update_module_run _ _ _ _ _ HM1)). reflexivity.
Qed.

(** What a successful instantiation leaves behind. *)
Lemma PrepareInstantiate_Ok m ctx iso M :
  modules iso !! m = Some M ->
  NoDup (export_names M) ->
  (forall n, n ∈ export_names M -> Lookup (exports M) n = TheHole) ->
  exists t,
    PrepareInstantiate m ctx iso
    = Ok true (store_module m (set_exports_field t M) (StoreExports m)
                 (with_cells (fun cs => cs ++ replicate (length (export_names M))
                                                        Undefined) iso))
    /\ bound_in_order (export_names M) (length (cells iso)) t
    /\ (forall k, k ∉ export_names M -> t !! k = exports M !! k).
Proof.
  intros HM Hnd Hfree.
  destruct (PrepareInstantiate_loop_Ok _ (exports M) iso Hnd Hfree)
    as (t & Hrun & Hbound & Hframe).
  exists t. split; [|split; assumption].
  rewrite (PrepareInstantiate_run _ _ _ _ HM), Hrun. reflexivity.
Qed.

Lemma PrepareInstantiate_Abort m ctx iso M :
  modules iso !! m = Some M ->
  ~ (NoDup (export_names M) /\
     forall n, n ∈ export_names M -> Lookup (exports M) n = TheHole) ->
  PrepareInstantiate m ctx iso = Abort CheckFailed.
Proof.
  intros HM Hbad.
  rewrite (PrepareInstantiate_run _ _ _ _ HM).
  rewrite PrepareInstantiate_loop_Abort; [reflexivity|exact Hbad].
Qed.

Lemma bound_in_order_elem names base (t : gmap string Object) name :
  bound_in_order names base t -> name ∈ names ->
  exists c, t !! name = Some (CellRef c) /\ base <= c < base + length names.
Proof.
  intros Hbound Hin. apply list_elem_of_lookup in Hin as [i Hi].
  exists (base + i). split; [apply (Hbound i name Hi)|].
  apply lookup_lt_Some in Hi. lia.
Qed.

Lemma dom_bound_in_order names base (t : gmap string Object) :
  bound_in_order names base t ->
  (forall k, k ∉ names -> t !! k = None) ->
  dom t = list_to_set names.
Proof.
  intros Hbound Hframe. apply set_eq. intros k.
  rewrite elem_of_dom, elem_of_list_to_set. split.
  - intros [v Hv]. destruct (decide (k ∈ names)) as [Hin|Hout]; [exact Hin|].
    rewrite (Hframe k Hout) in Hv. discriminate.
  - intros Hin. destruct (bound_in_order_elem _ _ _ _ Hbound Hin) as (c & Hc & _).
    rewrite Hc. eexists. reflexivity.
Qed.

(** C6: PrepareInstantiate, on a module whose declared names are pairwise
    distinct and whose export table is empty, returns true; it has
    allocated one new Cell per declared name, in declaration order, each
    holding undefined, and bound the i-th name to the i-th new Cell; the
    key set of the resulting table is the set of declared names, each key
    once; no other field of the module changes.  When a declared name
    already has an entry, be it in the table at entry or put there by an
    earlier iteration for an equal name, the CHECK kills the process. *)
Theorem PrepareInstantiate_spec iso m ctx M :
  modules iso !! m = Some M ->
  (NoDup (export_names M) -> exports M = ∅ ->
   exists iso' M',
     PrepareInstantiate m ctx iso = Ok true iso' /\
     modules iso' !! m = Some M' /\
     cells iso' = cells iso ++ replicate (length (export_names M)) Undefined /\
     bound_in_order (export_names M) (length (cells iso)) (exports M') /\
     dom (exports M') = list_to_set (export_names M) /\
     size (exports M') = length (export_names M) /\
     M' = set_exports_field (exports M') M /\
     journal iso' = journal iso ++ [StoreExports m])
  /\
  ((exists name, name ∈ export_names M /\ Lookup (exports M) name <> TheHole) ->
   PrepareInstantiate m ctx iso = Abort CheckFailed)
  /\
  (~ NoDup (export_names M) ->
   PrepareInstantiate m ctx iso = Abort CheckFailed).
Proof.
  intros HM. split; [|split].
  - intros Hnd Hempty.
    destruct (PrepareInstantiate_Ok m ctx iso M HM Hnd) as (t & Hrun & Hbound & Hframe).
    { intros n _. unfold Lookup. rewrite Hempty, lookup_empty. reflexivity. }
    assert (Hdom : dom t = list_to_set (export_names M)).
    { apply (dom_bound_in_order _ _ _ Hbound). intros k Hk.
      rewrite (Hframe k Hk), Hempty. apply lookup_empty. }
    eexists. exists (set_exports_field t M).
    split; [exact Hrun|].
    split; [eapply lookup_store_module_eq; exact HM|].
    split; [reflexivity|].
    split; [exact Hbound|].
    split; [exact Hdom|].
    split; [|split; reflexivity].
    simpl. rewrite <- size_dom, Hdom. apply size_list_to_set, Hnd.
  - intros (name & Hin & Hentry). apply (PrepareInstantiate_Abort _ _ _ _ HM).
    intros [_ Hfree]. apply Hentry, Hfree, Hin.
  - intros Hdup. apply (PrepareInstantiate_Abort _ _ _ _ HM).
    intros [Hnd _]. contradiction.
Qed.

Lemma PrepareInstantiate_spec_witness :
  (modules isolate_ab !! 0 = Some module_ab /\
   NoDup (export_names module_ab) /\ exports module_ab = ∅ /\
   exists iso' M',
     PrepareInstantiate 0 0 isolate_ab = Ok true iso' /\
     modules iso' !! 0 = Some M' /\
     cells iso' = [Undefined; Undefined] /\
     dom (exports M') = list_to_set ["a"; "b"]%string)
  /\
  (~ NoDup ["a"; "a"]%string /\
   PrepareInstantiate 0 0
     (no_exception_isolate [fresh_module ["a"; "a"]%string 0])
   = Abort CheckFailed).
Proof.
  split.
  - split; [reflexivity|].
    assert (Hnd : NoDup (export_names module_ab)).
    { apply (bool_decide_unpack (NoDup ["a"; "b"]%string)). vm_compute. exact I. }
    split; [exact Hnd|]. split; [reflexivity|].
    destruct (PrepareInstantiate_spec isolate_ab 0 0 module_ab eq_refl)
      as (Hok & _).
    destruct (Hok Hnd eq_refl) as (iso' & M' & Hrun & HM' & Hcells & _ & Hdom & _).
    exists iso', M'. repeat split; assumption.
  - assert (Hdup : ~ NoDup ["a"; "a"]%string).
    { apply (bool_decide_unpack (~ NoDup ["a"; "a"]%string)). vm_compute. exact I. }
    split; [exact Hdup|].
    destruct (PrepareInstantiate_spec
                (no_exception_isolate [fresh_module ["a"; "a"]%string 0]) 0 0
                (fresh_module ["a"; "a"]%string 0) eq_refl)
      as (_ & _ & Hbad).
    apply Hbad, Hdup.
Defined.

(** ** What the operations leave alone

    A small program logic: [preserves R c] composes along the binds of [c]
    when [R] is a preorder, so each operation is framed by framing the
    primitives it is written with. *)

#[global] Instance same_bindings_preorder : PreOrder same_bindings.
Proof.
  split.
  - intros M. split; reflexivity.
  - intros M1 M2 M3 [H1 H2] [H3 H4]. split; congruence.
Qed.

#[global] Instance same_capability_preorder : PreOrder same_capability.
Proof.
  split.
  - intros M. reflexivity.
  - intros M1 M2 M3 H1 H2. unfold same_capability in *. congruence.
Qed.

#[global] Instance module_evolves_preorder P m :
  PreOrder P -> PreOrder (module_evolves P m).
Proof.
  intros HP. split.
  - intros iso M HM. exists M. split; [exact HM|reflexivity].
  - intros i1 i2 i3 H12 H23 M HM.
    destruct (H12 M HM) as (M2 & HM2 & HP2).
    destruct (H23 M2 HM2) as (M3 & HM3 & HP3).
    exists M3. split; [exact HM3|]. etransitivity; eassumption.
Qed.

Create HintDb frame.

Section Frame.

Context (P : relation SyntheticModule) `{!PreOrder P} (m : Address).

Local Abbreviation R := (module_evolves P m).

Lemma preserves_mret {A : Type} (a : A) : preserves R (mret a).
Proof. intros iso a' iso' [= _ <-]. reflexivity. Qed.

Lemma preserves_bind {A B : Type} (c : Run A) (k : A -> Run B) :
  preserves R c -> (forall a, preserves R (k a)) -> preserves R (c ≫= k).
Proof.
  intros Hc Hk iso b iso' H.
  apply bind_inv in H as (a & iso1 & H1 & H2).
  transitivity iso1; [eapply Hc, H1|eapply Hk, H2].
Qed.

Lemma preserves_FATAL {A : Type} why : preserves R (@FATAL A why).
Proof. intros iso a iso' H. discriminate. Qed.

Lemma preserves_same_modules {A : Type} (c : Run A) :
  (forall iso a iso', c iso = Ok a iso' -> modules iso' = modules iso) ->
  preserves R c.
Proof.
  intros Hc iso a iso' H M HM. exists M.
  rewrite (Hc _ _ _ H). split; [exact HM|reflexivity].
Qed.

Lemma preserves_modify f :
  (forall iso, modules (f iso) = modules iso) -> preserves R (modify f).
Proof.
  intros Hf. apply preserves_same_modules.
  intros iso a iso' [= _ <-]. apply Hf.
Qed.

Lemma preserves_CHECK b : preserves R (CHECK b).
Proof. destruct b; [apply preserves_mret|apply preserves_FATAL]. Qed.

Lemma preserves_module_at m' : preserves R (module_at m').
Proof.
  apply preserves_same_modules. intros iso M iso' H.
  apply module_at_inv in H as [-> _]. reflexivity.
Qed.

Lemma preserves_update_module m' f ev :
  (m' = m -> forall M, P M (f M)) -> preserves R (update_module m' f ev).
Proof.
  intros Hf iso u iso' H M HM.
  apply update_module_inv in H as (M0 & HM0 & ->).
  destruct (decide (m' = m)) as [->|Hne].
  - exists (f M0). split; [eapply lookup_store_module_eq, HM0|].
    assert (M0 = M) as -> by congruence. apply Hf. reflexivity.
  - exists M. split; [|reflexivity].
    rewrite lookup_store_module_ne; [exact HM|exact Hne].
Qed.

Lemma preserves_NewCell : preserves R NewCell.
Proof. apply preserves_same_modules. intros iso a iso' [= _ <-]. reflexivity. Qed.

Lemma preserves_Cell_cast o : preserves R (Cell_cast o).
Proof. destruct o; first [apply preserves_mret|apply preserves_FATAL]. Qed.

Lemma preserves_Cell_set_value c v : preserves R (Cell_set_value c v).
Proof.
  apply preserves_same_modules. intros iso a iso'. unfold Cell_set_value.
  destruct (decide (c < length (cells iso))); [|discriminate].
  intros [= _ <-]. reflexivity.
Qed.

Lemma preserves_NewJSPromise : preserves R NewJSPromise.
Proof. apply preserves_same_modules. intros iso a iso' [= _ <-]. reflexivity. Qed.

Lemma preserves_JSPromise_Resolve p v : preserves R (JSPromise_Resolve p v).
Proof.
  apply preserves_same_modules. intros iso a iso'. unfold JSPromise_Resolve.
  destruct (promises iso !! p) as [[| |]|]; try discriminate;
    try (intros [= _ <-]; reflexivity).
  destruct (IsJSPromise v); intros [= _ <-]; reflexivity.
Qed.

Lemma preserves_ToHandleChecked {A : Type} (r : option A) :
  preserves R (ToHandleChecked r).
Proof. destruct r; [apply preserves_mret|apply preserves_FATAL]. Qed.

Lemma preserves_FromJust {A : Type} (r : option A) : preserves R (FromJust r).
Proof. destruct r; [apply preserves_mret|apply preserves_FATAL]. Qed.

Lemma preserves_Throw e : preserves R (Throw e).
Proof. apply preserves_modify. reflexivity. Qed.

Lemma preserves_ThrowAt {A : Type} e loc : preserves R (@ThrowAt A e loc).
Proof. apply preserves_same_modules. intros iso a iso' [= _ <-]. reflexivity. Qed.

Lemma preserves_PromoteScheduledException :
  preserves R PromoteScheduledException.
Proof. apply preserves_modify. reflexivity. Qed.

Lemma preserves_get_pending_exception : preserves R get_pending_exception.
Proof. apply preserves_same_modules. intros iso a iso' [= _ <-]. reflexivity. Qed.

Lemma preserves_get_native_context : preserves R get_native_context.
Proof. apply preserves_same_modules. intros iso a iso' [= _ <-]. reflexivity. Qed.

Lemma preserves_discard {A : Type} (c : Run A) :
  preserves R c -> preserves R (discard c).
Proof. intros H. apply preserves_bind; [exact H|intros _; apply preserves_mret]. Qed.

Hint Resolve preserves_mret preserves_FATAL preserves_CHECK
  preserves_module_at preserves_NewCell preserves_Cell_cast
  preserves_Cell_set_value preserves_NewJSPromise preserves_JSPromise_Resolve
  preserves_ToHandleChecked preserves_FromJust preserves_Throw
  preserves_ThrowAt preserves_PromoteScheduledException
  preserves_get_pending_exception preserves_get_native_context : frame.

(** Walk down the binds and the branches; the leaves are primitives. *)
Ltac frame :=
  repeat first
    [ solve [auto with frame]
    | progress cbv zeta
    | match goal with
      | |- preserves _ (if ?b then _ else _) => destruct b
      | |- preserves _ (match ?o with Some _ => _ | None => _ end) => destruct o
      | |- preserves _ (_ ≫= _) => apply preserves_bind; [|intros ?]
      end ].

Lemma preserves_SetExport m' name v : preserves R (SetExport m' name v).
Proof. unfold SetExport. frame. Qed.

Lemma preserves_SetExportStrict m' name v :
  preserves R (SetExportStrict m' name v).
Proof. unfold SetExportStrict. frame. apply preserves_SetExport. Qed.

Lemma preserves_ResolveExport m' spec name loc must :
  preserves R (ResolveExport m' spec name loc must).
Proof. unfold ResolveExport. frame. Qed.

Lemma preserves_PrepareInstantiate_loop names :
  forall t, preserves R (PrepareInstantiate_loop names t).
Proof. induction names as [|name rest IH]; intros t; simpl; frame. Qed.

Lemma preserves_PrepareInstantiate m' ctx :
  (m' = m -> forall M t, P M (set_exports_field t M)) ->
  preserves R (PrepareInstantiate m' ctx).
Proof.
  intros Hexp. unfold PrepareInstantiate. frame.
  - apply preserves_PrepareInstantiate_loop.
  - apply preserves_update_module. intros Hm M. apply Hexp, Hm.
Qed.

Hypothesis P_status : forall M s, P M (set_status s M).

Lemma preserves_SetStatus m' s : preserves R (SetStatus m' s).
Proof. apply preserves_update_module. intros _ M. apply P_status. Qed.

Lemma preserves_FinishInstantiate m' : preserves R (FinishInstantiate m').
Proof. unfold FinishInstantiate. frame. apply preserves_SetStatus. Qed.

Hypothesis P_exception : forall M e, P M (set_exception e M).

Lemma preserves_RecordError m' e : preserves R (RecordError m' e).
Proof.
  unfold RecordError. frame; apply preserves_update_module; intros _ M.
  - apply P_status.
  - apply P_exception.
Qed.

Variable F : Address -> EvaluationSteps.
Hypothesis F_respects : host_respects P F.

Lemma preserves_Evaluate m' :
  (m' = m -> forall M cap, P M (set_capability_field cap M)) ->
  preserves R (Evaluate F m').
Proof.
  intros Hcap. unfold Evaluate.
  apply preserves_bind; [apply preserves_SetStatus|intros _].
  apply preserves_bind; [apply preserves_module_at|intros M1].
  apply preserves_bind; [apply preserves_get_native_context|intros ctx].
  apply preserves_bind; [apply F_respects|intros [v|]].
  - apply preserves_bind; [apply preserves_SetStatus|intros _].
    apply preserves_bind.
    + frame.
    + intros cap. apply preserves_bind; [|intros _; apply preserves_mret].
      apply preserves_update_module. intros Hm M. apply Hcap, Hm.
  - frame. apply preserves_RecordError.
Qed.

End Frame.

(** ** Later in the life of a module *)

Lemma perform_same_bindings F m c :
  host_respects same_bindings F ->
  reinstantiates m c = false ->
  preserves (module_evolves same_bindings m) (perform F c).
Proof.
  intros HF Hc. destruct c as [m' n v|m' n v|m' s n l b|m' ctx|m'|m']; simpl.
  - apply preserves_discard; [apply _|]. apply preserves_SetExport, _.
  - apply preserves_SetExportStrict, _.
  - apply preserves_discard; [apply _|]. apply preserves_ResolveExport, _.
  - apply preserves_discard; [apply _|].
    apply preserves_PrepareInstantiate; [apply _|].
    intros ->. simpl in Hc. rewrite bool_decide_eq_false in Hc. contradiction.
  - apply preserves_discard; [apply _|].
    apply preserves_FinishInstantiate; [apply _|]. intros M s. split; reflexivity.
  - apply preserves_discard; [apply _|].
    apply preserves_Evaluate; try apply _; try exact HF.
    + intros M s. split; reflexivity.
    + intros M e. split; reflexivity.
    + intros _ M cap. split; reflexivity.
Qed.

Lemma perform_same_capability F m c :
  host_respects same_capability F ->
  reevaluates m c = false ->
  preserves (module_evolves same_capability m) (perform F c).
Proof.
  intros HF Hc. destruct c as [m' n v|m' n v|m' s n l b|m' ctx|m'|m']; simpl.
  - apply preserves_discard; [apply _|]. apply preserves_SetExport, _.
  - apply preserves_SetExportStrict, _.
  - apply preserves_discard; [apply _|]. apply preserves_ResolveExport, _.
  - apply preserves_discard; [apply _|].
    apply preserves_PrepareInstantiate; [apply _|].
    intros _ M t. reflexivity.
  - apply preserves_discard; [apply _|].
    apply preserves_FinishInstantiate; [apply _|]. intros M s. reflexivity.
  - apply preserves_discard; [apply _|].
    apply preserves_Evaluate; try apply _; try exact HF.
    + intros M s. reflexivity.
    + intros M e. reflexivity.
    + intros ->. simpl in Hc. rewrite bool_decide_eq_false in Hc. contradiction.
Qed.

Lemma perform_all_preserves F (R : relation Isolate) `{!PreOrder R}
    (ok : Call -> bool) :
  (forall c, ok c = false -> preserves R (perform F c)) ->
  forall cs, Forall (fun c => ok c = false) cs ->
             preserves R (perform_all F cs).
Proof.
  intros Hstep cs Hcs. induction Hcs as [|c cs Hc _ IH]; simpl.
  - intros iso a iso' [= _ <-]. reflexivity.
  - intros iso a iso' H. apply bind_inv in H as (u & iso1 & H1 & H2).
    transitivity iso1; [eapply Hstep; eassumption|eapply IH, H2].
Qed.

Lemma PrepareInstantiate_inv m ctx iso M b iso1 :
  modules iso !! m = Some M ->
  PrepareInstantiate m ctx iso = Ok b iso1 ->
  exists t,
    b = true /\
    iso1 = store_module m (set_exports_field t M) (StoreExports m)
             (with_cells (fun cs => cs ++ replicate (length (export_names M))
                                                    Undefined) iso) /\
    bound_in_order (export_names M) (length (cells iso)) t /\
    (forall k, k ∉ export_names M -> t !! k = exports M !! k).
Proof.
  intros HM Hrun.
  destruct (decide (NoDup (export_names M) /\
                    Forall (fun n => Lookup (exports M) n = TheHole)
                           (export_names M))) as [[Hnd Hfree]|Hbad].
  - rewrite Forall_forall in Hfree.
    destruct (PrepareInstantiate_Ok m ctx iso M HM Hnd Hfree)
      as (t & Hok & Hbound & Hframe).
    rewrite Hok in Hrun. injection Hrun as <- <-.
    exists t. repeat split; assumption.
  - rewrite (PrepareInstantiate_Abort m ctx iso M HM) in Hrun; [discriminate|].
    intros [Hnd Hfree]. apply Hbad. split; [exact Hnd|].
    apply Forall_forall. exact Hfree.
Qed.

(** After instantiation and any later calls that do not instantiate the
    module again, the export table is the one instantiation built. *)
Lemma bindings_after_instantiation F m ctx iso M iso1 cs iso2 :
  host_respects same_bindings F ->
  modules iso !! m = Some M ->
  PrepareInstantiate m ctx iso = Ok true iso1 ->
  Forall (fun c => reinstantiates m c = false) cs ->
  perform_all F cs iso1 = Ok tt iso2 ->
  exists M2,
    modules iso2 !! m = Some M2 /\
    export_names M2 = export_names M /\
    bound_in_order (export_names M) (length (cells iso)) (exports M2) /\
    (forall k, k ∉ export_names M -> exports M2 !! k = exports M !! k).
Proof.
  intros HF HM Hprep Hcs Hrun.
  destruct (PrepareInstantiate_inv _ _ _ _ _ _ HM Hprep)
    as (t & _ & -> & Hbound & Hframe).
  pose proof (perform_all_preserves F (module_evolves same_bindings m)
                (reinstantiates m)
                (fun c Hc => perform_same_bindings F m c HF Hc) cs Hcs
                _ _ _ Hrun) as Hev.
  destruct (Hev (set_exports_field t M)) as (M2 & HM2 & Hnames & Hexp).
  { eapply lookup_store_module_eq. simpl. exact HM. }
  exists M2. split; [exact HM2|]. rewrite Hexp. simpl.
  split; [exact Hnames|]. split; assumption.
Qed.

(** C5: after PrepareInstantiate of a module whose table was empty, and
    after any later calls other than a second instantiation of it,
    ResolveExport of a declared name answers the Cell that instantiation
    bound to the name and changes nothing; ResolveExport of a name that is
    not declared answers the empty handle, with the state unchanged (no
    error raised) when must_resolve is false, and with the SyntaxError of
    template UnresolvableExport, carrying the module specifier and the
    export name, thrown at the location when must_resolve is true. *)
Theorem ResolveExport_spec F iso m ctx M iso1 cs iso2 name spec loc :
  host_respects same_bindings F ->
  modules iso !! m = Some M ->
  exports M = ∅ ->
  PrepareInstantiate m ctx iso = Ok true iso1 ->
  Forall (fun c => reinstantiates m c = false) cs ->
  perform_all F cs iso1 = Ok tt iso2 ->
  (name ∈ export_names M ->
   exists i,
     export_names M !! i = Some name /\
     forall must,
       ResolveExport m spec name loc must iso2
       = Ok (Some (length (cells iso) + i)) iso2)
  /\
  (name ∉ export_names M ->
   ResolveExport m spec name loc false iso2 = Ok None iso2 /\
   ResolveExport m spec name loc true iso2
   = Ok None (with_pending
                (JSError SyntaxError kUnresolvableExport [spec; name])
                (Some loc) iso2)).
Proof.
  intros HF HM Hempty Hprep Hcs Hrun.
  destruct (bindings_after_instantiation F m ctx iso M iso1 cs iso2
              HF HM Hprep Hcs Hrun) as (M2 & HM2 & _ & Hbound & Hframe).
  split.
  - intros Hin. apply list_elem_of_lookup in Hin as [i Hi].
    exists i. split; [exact Hi|]. intros must.
    eapply ResolveExport_found; [exact HM2|]. apply (Hbound i name Hi).
  - intros Hout.
    assert (Hmiss : IsCell (Lookup (exports M2) name) = false).
    { unfold Lookup. rewrite (Hframe name Hout), Hempty, lookup_empty.
      reflexivity. }
    split.
    + apply (ResolveExport_missing m spec name loc false iso2 M2 HM2 Hmiss).
    + apply (ResolveExport_missing m spec name loc true iso2 M2 HM2 Hmiss).
Qed.

(** C9: ResolveExport is idempotent.  After PrepareInstantiate, each
    declared name has one Cell such that every ResolveExport of the name,
    in the state instantiation left or in any state reached from it by
    later calls other than a second instantiation, answers that very Cell
    (the same address, not an equal value) and leaves the state as it was;
    so do two calls made one after the other. *)
Theorem ResolveExport_idempotent F iso m ctx M iso1 name :
  host_respects same_bindings F ->
  modules iso !! m = Some M ->
  PrepareInstantiate m ctx iso = Ok true iso1 ->
  name ∈ export_names M ->
  exists c,
    forall cs iso2 spec loc must spec' loc' must',
      Forall (fun c => reinstantiates m c = false) cs ->
      perform_all F cs iso1 = Ok tt iso2 ->
      ResolveExport m spec name loc must iso2 = Ok (Some c) iso2 /\
      (c1 ← ResolveExport m spec name loc must;
       c2 ← ResolveExport m spec' name loc' must';
       mret (c1, c2)) iso2 = Ok (Some c, Some c) iso2.
Proof.
  intros HF HM Hprep Hin.
  apply list_elem_of_lookup in Hin as [i Hi].
  exists (length (cells iso) + i).
  intros cs iso2 spec loc must spec' loc' must' Hcs Hrun.
  destruct (bindings_after_instantiation F m ctx iso M iso1 cs iso2
              HF HM Hprep Hcs Hrun) as (M2 & HM2 & _ & Hbound & _).
  assert (Hres : forall s l b,
             ResolveExport m s name l b iso2
             = Ok (Some (length (cells iso) + i)) iso2).
  { intros s l b. eapply ResolveExport_found; [exact HM2|].
    apply (Hbound i name Hi). }
  split; [apply Hres|].
  rewrite (bind_Ok _ _ _ _ _ (Hres spec loc must)).
  rewrite (bind_Ok _ _ _ _ _ (Hres spec' loc' must')). reflexivity.
Qed.

(** ** Evaluate *)

Lemma SetStatus_run m s iso M :
  modules iso !! m = Some M ->
  SetStatus m s iso = Ok tt (store_module m (set_status s M) (StoreStatus m s) iso).
Proof. apply update_module_run. Qed.

Lemma RecordError_run m e iso M :
  modules iso !! m = Some M ->
  RecordError m e iso =
  Ok tt (store_module m (set_exception e (set_status kErrored M))
           (StoreException m e)
           (store_module m (set_status kErrored M) (StoreStatus m kErrored) iso)).
Proof.
  intros HM. unfold RecordError.
  rewrite (bind_Ok _ _ _ _ _ (update_module_run _ _ _ _ _ HM)).
  apply update_module_run. eapply lookup_store_module_eq, HM.
Qed.

(** The state in which Evaluate calls the host procedure. *)
Lemma host_run_inv F m iso r iso2 :
  host_run F m iso r iso2 ->
  exists M,
    modules iso !! m = Some M /\
    F (evaluation_steps M) (native_context iso) m
      (store_module m (set_status kEvaluating M) (StoreStatus m kEvaluating) iso)
    = Ok r iso2.
Proof.
  intros (iso1 & M1 & Hset & HM1 & Hhost).
  apply update_module_inv in Hset as (M & HM & ->).
  rewrite (lookup_store_module_eq _ _ _ _ _ HM) in HM1. injection HM1 as <-.
  exists M. split; [exact HM|exact Hhost].
Qed.

Lemma host_run_intro F m iso M r iso2 :
  modules iso !! m = Some M ->
  F (evaluation_steps M) (native_context iso) m
    (store_module m (set_status kEvaluating M) (StoreStatus m kEvaluating) iso)
  = Ok r iso2 ->
  host_run F m iso r iso2.
Proof.
  intros HM Hhost. eexists. exists (set_status kEvaluating M).
  split; [apply SetStatus_run, HM|].
  split; [eapply lookup_store_module_eq, HM|exact Hhost].
Qed.

(** Evaluate up to the return of the host procedure. *)
Lemma Evaluate_run F m iso r iso2 :
  host_run F m iso r iso2 ->
  Evaluate F m iso =
  match r with
  | None =>
      (PromoteScheduledException;;
       e ← get_pending_exception;
       RecordError m e;;
       mret None) iso2
  | Some result =>
      (SetStatus m kEvaluated;;
       capability ←
         (if IsJSPromise result then mret result
          else
            capability ← NewJSPromise;
            r ← JSPromise_Resolve capability Undefined;
            ToHandleChecked r;;
            mret (JSPromiseRef capability));
       set_top_level_capability m capability;;
       mret (Some result)) iso2
  end.
Proof.
  intros (iso1 & M1 & Hset & HM1 & Hhost). unfold Evaluate.
  rewrite (bind_Ok _ _ _ _ _ Hset).
  rewrite (bind_Ok _ _ _ _ _ (module_at_run _ _ _ HM1)). cbv zeta.
  rewrite (bind_Ok get_native_context _ iso1 (native_context iso1) iso1 eq_refl).
  rewrite (bind_Ok _ _ _ _ _ Hhost).
  destruct r; reflexivity.
Qed.

Lemma Evaluate_throws_run F m iso iso2 M2 :
  host_run F m iso None iso2 ->
  modules iso2 !! m = Some M2 ->
  Evaluate F m iso =
  Ok None
     (store_module m
        (set_exception (scheduled_exception iso2) (set_status kErrored M2))
        (StoreException m (scheduled_exception iso2))
        (store_module m (set_status kErrored M2) (StoreStatus m kErrored)
           (with_pending (scheduled_exception iso2) None
              (with_scheduled TheHole iso2)))).
Proof.
  intros Hhost HM2. rewrite (Evaluate_run _ _ _ _ _ Hhost).
  rewrite bind_run. simpl. rewrite bind_run. simpl.
  erewrite bind_Ok; [reflexivity|].
  apply RecordError_run. exact HM2.
Qed.

Lemma Evaluate_returns_run F m iso v iso2 M2 :
  host_run F m iso (Some v) iso2 ->
  modules iso2 !! m = Some M2 ->
  Evaluate F m iso =
  Ok (Some v)
     (if IsJSPromise v
      then
        store_module m (set_capability_field v (set_status kEvaluated M2))
          (StoreCapability m v)
          (store_module m (set_status kEvaluated M2) (StoreStatus m kEvaluated)
             iso2)
      else
        store_module m
          (set_capability_field (JSPromiseRef (length (promises iso2)))
                                (set_status kEvaluated M2))
          (StoreCapability m (JSPromiseRef (length (promises iso2))))
          (with_promises (fun ps => ps ++ [Fulfilled Undefined])
             (store_module m (set_status kEvaluated M2)
                (StoreStatus m kEvaluated) iso2))).
Proof.
  intros Hhost HM2. rewrite (Evaluate_run _ _ _ _ _ Hhost).
  rewrite (bind_Ok _ _ _ _ _ (SetStatus_run _ _ _ _ HM2)).
  set (isoA := store_module m (set_status kEvaluated M2)
                 (StoreStatus m kEvaluated) iso2).
  assert (HMA : modules isoA !! m = Some (set_status kEvaluated M2))
    by (eapply lookup_store_module_eq, HM2).
  destruct (IsJSPromise v) eqn:Hv.
  - rewrite (bind_Ok (mret v) _ isoA v isoA eq_refl).
    unfold set_top_level_capability.
    rewrite (bind_Ok _ _ _ _ _ (update_module_run _ _ _ _ _ HMA)). reflexivity.
  - set (p := length (promises iso2)).
    set (isoB := with_promises (fun ps => ps ++ [Fulfilled Undefined]) isoA).
    assert (Hcap : (capability ← NewJSPromise;
                    r ← JSPromise_Resolve capability Undefined;
                    ToHandleChecked r;;
                    mret (JSPromiseRef capability)) isoA
                   = Ok (JSPromiseRef p) isoB).
    { rewrite bind_run. simpl. rewrite bind_run. unfold JSPromise_Resolve. simpl.
      rewrite list_lookup_middle by reflexivity. simpl.
      rewrite bind_run. simpl. unfold isoB, with_promises. simpl.
      do 2 f_equal.
      rewrite <- (Nat.add_0_r (length (promises iso2))).
      rewrite insert_app_r. reflexivity. }
    rewrite (bind_Ok _ _ _ _ _ Hcap).
    assert (HMB : modules isoB !! m = Some (set_status kEvaluated M2))
      by exact HMA.
    unfold set_top_level_capability.
    rewrite (bind_Ok _ _ _ _ _ (update_module_run _ _ _ _ _ HMB)). reflexivity.
Qed.

(** C1: when the host procedure succeeds, Evaluate looks at the value it
    returned.  A promise becomes the top-level capability of the module as
    it is: the field holds the reference the host returned, and no promise
    is allocated or altered.  For any other value a promise is allocated at
    an address the host had not used, it is fulfilled with undefined, and
    the field holds the reference to it; the host's promises are not
    altered. *)
Theorem Evaluate_capability F iso m v iso2 M2 :
  host_run F m iso (Some v) iso2 ->
  modules iso2 !! m = Some M2 ->
  exists iso' M',
    Evaluate F m iso = Ok (Some v) iso' /\
    modules iso' !! m = Some M' /\
    (forall p, v = JSPromiseRef p ->
               top_level_capability M' = JSPromiseRef p /\
               promises iso' = promises iso2)
    /\
    (IsJSPromise v = false ->
     top_level_capability M' = JSPromiseRef (length (promises iso2)) /\
     promises iso2 !! length (promises iso2) = None /\
     promises iso' = promises iso2 ++ [Fulfilled Undefined] /\
     promises iso' !! length (promises iso2) = Some (Fulfilled Undefined)).
Proof.
  intros Hhost HM2.
  pose proof (Evaluate_returns_run F m iso v iso2 M2 Hhost HM2) as Hrun.
  destruct (IsJSPromise v) eqn:Hv.
  - eexists. eexists. split; [exact Hrun|].
    split.
    { eapply lookup_store_module_eq. eapply lookup_store_module_eq, HM2. }
    split; [|discriminate].
    intros p ->. split; reflexivity.
  - eexists. eexists. split; [exact Hrun|].
    split.
    { eapply lookup_store_module_eq. simpl.
      apply list_lookup_insert_eq. eapply lookup_lt_Some, HM2. }
    split; [intros p ->; discriminate|].
    intros _. split; [reflexivity|].
    split; [apply lookup_ge_None; lia|].
    split; [reflexivity|].
    simpl. apply list_lookup_middle. reflexivity.
Qed.

(** C3: when the host procedure throws, Evaluate answers the empty handle;
    the error the host raised is promoted to the pending exception and
    recorded on the module by a single store to its exception field; the
    status of the module is not Evaluated (RecordError leaves it Errored);
    no promise is allocated and the top-level capability field is not
    written, so it is unset if the host left it unset. *)
Theorem Evaluate_host_throws F iso m iso2 M2 :
  host_run F m iso None iso2 ->
  modules iso2 !! m = Some M2 ->
  exists iso' M',
    Evaluate F m iso = Ok None iso' /\
    modules iso' !! m = Some M' /\
    exception M' = scheduled_exception iso2 /\
    pending_exception iso' = scheduled_exception iso2 /\
    journal iso' = journal iso2 ++ [StoreStatus m kErrored;
                                    StoreException m (scheduled_exception iso2)] /\
    status M' = kErrored /\
    status M' <> kEvaluated /\
    top_level_capability M' = top_level_capability M2 /\
    (top_level_capability M2 = Undefined -> top_level_capability M' = Undefined) /\
    promises iso' = promises iso2 /\
    cells iso' = cells iso2.
Proof.
  intros Hhost HM2.
  eexists. eexists.
  split; [apply (Evaluate_throws_run F m iso iso2 M2 Hhost HM2)|].
  split.
  { eapply lookup_store_module_eq. eapply lookup_store_module_eq. exact HM2. }
  split; [reflexivity|]. split; [reflexivity|].
  split; [simpl; rewrite <- app_assoc; reflexivity|].
  split; [reflexivity|]. split; [discriminate|].
  split; [reflexivity|]. split; [intros H; exact H|].
  split; reflexivity.
Qed.

(** C8: when the host procedure succeeds with a value, Evaluate answers
    that value, and when the value is not a promise the answer is therefore
    not the capability that was made.  After the host has returned Evaluate
    makes two stores to the module, the status and then the capability: the
    capability field is written once.  No later call other than a second
    Evaluate of the module writes the field again. *)
Theorem Evaluate_returns_host_value F iso m v iso2 M2 :
  host_respects same_capability F ->
  host_run F m iso (Some v) iso2 ->
  modules iso2 !! m = Some M2 ->
  exists iso' cap,
    Evaluate F m iso = Ok (Some v) iso' /\
    (top_level_capability <$> modules iso' !! m) = Some cap /\
    (IsJSPromise v = false -> v <> cap) /\
    (forall iso1, SetStatus m kEvaluating iso = Ok tt iso1 ->
                  journal iso1 = journal iso ++ [StoreStatus m kEvaluating]) /\
    journal iso' = journal iso2 ++ [StoreStatus m kEvaluated;
                                    StoreCapability m cap] /\
    forall cs iso3,
      Forall (fun c => reevaluates m c = false) cs ->
      perform_all F cs iso' = Ok tt iso3 ->
      (top_level_capability <$> modules iso3 !! m) = Some cap.
Proof.
  intros HF Hhost HM2.
  pose proof (Evaluate_returns_run F m iso v iso2 M2 Hhost HM2) as Hrun.
  set (cap := if IsJSPromise v then v else JSPromiseRef (length (promises iso2))).
  assert (Hlt : m < length (modules iso2)) by (eapply lookup_lt_Some, HM2).
  eexists. exists cap. split; [exact Hrun|].
  assert (Hcap : (top_level_capability <$>
                  modules (if IsJSPromise v
      then
        store_module m (set_capability_field v (set_status kEvaluated M2))
          (StoreCapability m v)
          (store_module m (set_status kEvaluated M2) (StoreStatus m kEvaluated)
             iso2)
      else
        store_module m
          (set_capability_field (JSPromiseRef (length (promises iso2)))
                                (set_status kEvaluated M2))
          (StoreCapability m (JSPromiseRef (length (promises iso2))))
          (with_promises (fun ps => ps ++ [Fulfilled Undefined])
             (store_module m (set_status kEvaluated M2)
                (StoreStatus m kEvaluated) iso2))) !! m) = Some cap).
  { unfold cap. destruct (IsJSPromise v); simpl;
      rewrite list_lookup_insert_eq by (rewrite length_insert; exact Hlt);
      reflexivity. }
  split; [exact Hcap|].
  split.
  { unfold cap. intros Hv. rewrite Hv. intros ->. discriminate. }
  split.
  { intros iso1 Hset. apply update_module_inv in Hset as (M & _ & ->).
    reflexivity. }
  split.
  { unfold cap. destruct (IsJSPromise v); simpl; rewrite <- app_assoc; reflexivity. }
  intros cs iso3 Hcs Hlater.
  pose proof (perform_all_preserves F (module_evolves same_capability m)
                (reevaluates m)
                (fun c Hc => perform_same_capability F m c HF Hc) cs Hcs
                _ _ _ Hlater) as Hev.
  destruct (modules _ !! m) as [M'|] eqn:HM' in Hcap; [|discriminate].
  destruct (Hev M' HM') as (M3 & HM3 & Hsame).
  rewrite HM3. simpl. rewrite Hsame. exact Hcap.
Qed.

(** ** The status machine *)

(** C7, as the code has it: PrepareInstantiate leaves the status as it is
    (it makes no Unlinked to Linking transition); FinishInstantiate returns
    true and sets Linked; Evaluate sets Evaluating before it calls the host
    procedure, then Evaluated when the procedure succeeds, and RecordError
    leaves Errored when it throws.  The status does not regress across
    FinishInstantiate when it was at most Linked, nor across Evaluate when
    it was at most Evaluating. *)
Theorem status_transitions F iso m ctx M :
  modules iso !! m = Some M ->
  (forall b iso', PrepareInstantiate m ctx iso = Ok b iso' ->
                  (status <$> modules iso' !! m) = Some (status M))
  /\
  (exists iso' M',
     FinishInstantiate m iso = Ok true iso' /\
     modules iso' !! m = Some M' /\
     status M' = kLinked /\
     (status_rank (status M) <= status_rank kLinked ->
      status_rank (status M) <= status_rank (status M')))
  /\
  (exists iso1 M1,
     SetStatus m kEvaluating iso = Ok tt iso1 /\
     modules iso1 !! m = Some M1 /\
     status M1 = kEvaluating /\
     forall r iso2 M2,
       F (evaluation_steps M1) (native_context iso1) m iso1 = Ok r iso2 ->
       modules iso2 !! m = Some M2 ->
       exists iso' M',
         Evaluate F m iso = Ok r iso' /\
         modules iso' !! m = Some M' /\
         status M' = match r with Some _ => kEvaluated | None => kErrored end /\
         (status_rank (status M) <= status_rank kEvaluating ->
          status_rank (status M) <= status_rank (status M1) /\
          status_rank (status M1) <= status_rank (status M'))).
Proof.
  intros HM. split; [|split].
  - intros b iso' Hprep.
    destruct (PrepareInstantiate_inv _ _ _ _ _ _ HM Hprep) as (t & _ & -> & _).
    erewrite lookup_store_module_eq; [reflexivity|exact HM].
  - eexists. exists (set_status kLinked M).
    split.
    { unfold FinishInstantiate.
      rewrite (bind_Ok _ _ _ _ _ (SetStatus_run _ _ _ _ HM)). reflexivity. }
    split; [eapply lookup_store_module_eq, HM|].
    split; [reflexivity|]. intros H. exact H.
  - eexists. exists (set_status kEvaluating M).
    split; [apply SetStatus_run, HM|].
    split; [eapply lookup_store_module_eq, HM|].
    split; [reflexivity|].
    intros r iso2 M2 Hhost HM2.
    assert (Hrun : host_run F m iso r iso2).
    { apply (host_run_intro F m iso M r iso2 HM). exact Hhost. }
    destruct r as [v|].
    + pose proof (Evaluate_returns_run F m iso v iso2 M2 Hrun HM2) as Hev.
      destruct (IsJSPromise v); eexists; eexists;
        (split; [exact Hev|]);
        (split; [eapply lookup_store_module_eq;
                 eapply lookup_store_module_eq, HM2|]);
        (split; [reflexivity|]); simpl; intros H; lia.
    + eexists. eexists.
      split; [apply (Evaluate_throws_run F m iso iso2 M2 Hrun HM2)|].
      split.
      { eapply lookup_store_module_eq. eapply lookup_store_module_eq, HM2. }
      split; [reflexivity|]. simpl. intros H. lia.
Qed.

Lemma SetExportStrict_found m name v iso M c :
  modules iso !! m = Some M ->
  exports M !! name = Some (CellRef c) ->
  c < length (cells iso) ->
  SetExportStrict m name v iso = Ok tt (with_cells (fun cs => <[c := v]> cs) iso).
Proof.
  intros HM Hc Hlt. unfold SetExportStrict.
  rewrite (bind_Ok _ _ _ _ _ (module_at_run _ _ _ HM)).
  unfold Lookup. rewrite Hc. simpl.
  rewrite (bind_Ok (mret tt) _ iso tt iso eq_refl).
  rewrite (bind_Ok _ _ _ _ _ (SetExport_found _ _ v _ _ _ HM Hc Hlt)).
  reflexivity.
Qed.

(** ** Scenario A *)

(** C2, as the code has it: a module declaring exports a and b, whose host
    procedure calls SetExportStrict(module, a, 42) and returns 7, is
    instantiated and evaluated.  Evaluate returns 7; ResolveExport of a
    then yields a Cell that holds 42; the top-level capability of the
    module is a promise the engine allocated, and it is fulfilled with
    undefined, the value 7 appearing nowhere in it. *)
Theorem scenario_A F iso m M :
  modules iso !! m = Some M ->
  export_names M = ["a"; "b"]%string ->
  exports M = ∅ ->
  F (evaluation_steps M) = steps_set_a_return_7 ->
  exists iso' c p,
    (instantiate m;; Evaluate F m) iso = Ok (Some (Smi 7)) iso' /\
    (forall spec loc must,
       ResolveExport m spec "a" loc must iso' = Ok (Some c) iso') /\
    cells iso' !! c = Some (Smi 42) /\
    (top_level_capability <$> modules iso' !! m) = Some (JSPromiseRef p) /\
    promises iso !! p = None /\
    capability_state iso' m = Some (Fulfilled Undefined).
Proof.
  intros HM Hnames Hempty HF.
  assert (Hnd : NoDup (export_names M)).
  { rewrite Hnames. apply (bool_decide_unpack (NoDup ["a"; "b"]%string)).
    vm_compute. exact I. }
  destruct (PrepareInstantiate_Ok m 0 iso M HM Hnd) as (t & Hprep & Hbound & _).
  { intros n _. unfold Lookup. rewrite Hempty, lookup_empty. reflexivity. }
  rewrite Hnames in Hprep, Hbound. simpl in Hprep.
  pose proof (Hbound 0 "a"%string eq_refl) as Ha. rewrite Nat.add_0_r in Ha.
  set (base := length (cells iso)) in *.
  set (isoP := store_module m (set_exports_field t M) (StoreExports m)
                 (with_cells (fun cs => cs ++ [Undefined; Undefined]) iso)) in *.
  assert (HMP : modules isoP !! m = Some (set_exports_field t M))
    by (eapply lookup_store_module_eq; exact HM).
  set (ML := set_status kLinked (set_exports_field t M)).
  set (isoL := store_module m ML (StoreStatus m kLinked) isoP).
  assert (HML : modules isoL !! m = Some ML)
    by (eapply lookup_store_module_eq; exact HMP).
  assert (Hinst : instantiate m iso = Ok tt isoL).
  { unfold instantiate. rewrite (bind_Ok _ _ _ _ _ Hprep).
    unfold FinishInstantiate.
    rewrite bind_run, (bind_Ok _ _ _ _ _ (SetStatus_run _ _ _ _ HMP)).
    reflexivity. }
  set (ME := set_status kEvaluating ML).
  set (isoE := store_module m ME (StoreStatus m kEvaluating) isoL).
  assert (HME : modules isoE !! m = Some ME)
    by (eapply lookup_store_module_eq; exact HML).
  set (isoH := with_cells (fun cs => <[base := Smi 42]> cs) isoE).
  assert (Hbase : base < length (cells isoE)).
  { simpl. rewrite length_app. simpl. unfold base. lia. }
  assert (Hhost : host_run F m isoL (Some (Smi 7)) isoH).
  { apply (host_run_intro F m isoL ML _ _ HML).
    change (evaluation_steps ML) with (evaluation_steps M). rewrite HF.
    unfold steps_set_a_return_7.
    rewrite (bind_Ok _ _ _ _ _
               (SetExportStrict_found m "a" (Smi 42) isoE ME base HME Ha Hbase)).
    reflexivity. }
  assert (HMH : modules isoH !! m = Some ME) by exact HME.
  pose proof (Evaluate_returns_run F m isoL (Smi 7) isoH ME Hhost HMH) as Hev.
  simpl IsJSPromise in Hev. cbv iota in Hev.
  eexists. exists base, (length (promises iso)).
  split.
  { rewrite (bind_Ok _ _ _ _ _ Hinst). exact Hev. }
  assert (Hlt : m < length (modules iso)) by (eapply lookup_lt_Some, HM).
  split.
  { intros spec loc must. eapply ResolveExport_found.
    - simpl. apply list_lookup_insert_eq. rewrite !length_insert. exact Hlt.
    - exact Ha. }
  split.
  { simpl. apply list_lookup_insert_eq. rewrite length_app. simpl.
    unfold base. lia. }
  split.
  { simpl. rewrite list_lookup_insert_eq by (rewrite !length_insert; exact Hlt).
    reflexivity. }
  split; [apply lookup_ge_None; lia|].
  unfold capability_state. simpl.
  rewrite list_lookup_insert_eq by (rewrite !length_insert; exact Hlt).
  simpl. apply list_lookup_middle. reflexivity.
Qed.

(** ** The scenarios, run *)

Lemma host_table_respects P `{!PreOrder P} : host_respects P host_table.
Proof.
  intros a ctx m' m. destruct a as [|[|a]]; simpl.
  - unfold steps_set_a_return_7.
    apply preserves_bind; [exact _|apply preserves_SetExportStrict, _|].
    intros _. apply preserves_mret, _.
  - unfold steps_throw_boom.
    apply preserves_bind; [exact _| |intros _; apply preserves_mret, _].
    apply preserves_modify; [exact _|]. reflexivity.
  - unfold steps_return_promise.
    apply preserves_bind; [exact _|apply preserves_NewJSPromise, _|].
    intros p. apply preserves_mret, _.
Qed.

Lemma host_run_concrete F m iso M r :
  modules iso !! m = Some M ->
  answer (F (evaluation_steps M) (native_context iso) m
            (after (SetStatus m kEvaluating) iso)) = Some r ->
  host_run F m iso r (state_after_host F m iso).
Proof.
  intros HM Hr. unfold state_after_host, after in *.
  rewrite (SetStatus_run _ _ _ _ HM) in *. simpl default in *.
  apply (host_run_intro F m iso M r _ HM).
  erewrite bind_Ok; [|apply module_at_run; eapply lookup_store_module_eq, HM].
  change (evaluation_steps (set_status kEvaluating M)) with (evaluation_steps M).
  destruct (F (evaluation_steps M) (native_context iso) m _) as [r' iso2|why];
    [|discriminate].
  injection Hr as ->. reflexivity.
Qed.

Lemma Evaluate_capability_witness :
  (exists iso' M',
     Evaluate host_table 2 linked_ab = Ok (Some (JSPromiseRef 0)) iso' /\
     modules iso' !! 2 = Some M' /\
     top_level_capability M' = JSPromiseRef 0 /\
     promises iso' = promises (state_after_host host_table 2 linked_ab))
  /\
  (exists iso' M',
     Evaluate host_table 0 linked_ab = Ok (Some (Smi 7)) iso' /\
     modules iso' !! 0 = Some M' /\
     top_level_capability M' = JSPromiseRef (length (promises linked_ab)) /\
     promises iso' = [Fulfilled Undefined]).
Proof.
  split.
  - assert (HM : modules linked_ab !! 2 = Some (module_of linked_ab 2))
      by (vm_compute; reflexivity).
    assert (Hr : answer (host_table (evaluation_steps (module_of linked_ab 2))
                           (native_context linked_ab) 2
                           (after (SetStatus 2 kEvaluating) linked_ab))
                 = Some (Some (JSPromiseRef 0)))
      by (vm_compute; reflexivity).
    assert (HM2 : modules (state_after_host host_table 2 linked_ab) !! 2
                  = Some (module_of (state_after_host host_table 2 linked_ab) 2))
      by (vm_compute; reflexivity).
    destruct (Evaluate_capability host_table linked_ab 2 (JSPromiseRef 0) _ _
                (host_run_concrete _ _ _ _ _ HM Hr) HM2)
      as (iso' & M' & Hrun & HM' & Hpromise & _).
    destruct (Hpromise 0 eq_refl) as [Hcap Hsame].
    exists iso', M'. repeat split; assumption.
  - assert (HM : modules linked_ab !! 0 = Some (module_of linked_ab 0))
      by (vm_compute; reflexivity).
    assert (Hr : answer (host_table (evaluation_steps (module_of linked_ab 0))
                           (native_context linked_ab) 0
                           (after (SetStatus 0 kEvaluating) linked_ab))
                 = Some (Some (Smi 7)))
      by (vm_compute; reflexivity).
    assert (HM2 : modules (state_after_host host_table 0 linked_ab) !! 0
                  = Some (module_of (state_after_host host_table 0 linked_ab) 0))
      by (vm_compute; reflexivity).
    destruct (Evaluate_capability host_table linked_ab 0 (Smi 7) _ _
                (host_run_concrete _ _ _ _ _ HM Hr) HM2)
      as (iso' & M' & Hrun & HM' & _ & Hother).
    destruct (Hother eq_refl) as (Hcap & _ & Hpromises & _).
    exists iso', M'. repeat split; assumption.
Defined.

Lemma Evaluate_host_throws_witness :
  exists iso' M',
    Evaluate host_table 1 linked_ab = Ok None iso' /\
    modules iso' !! 1 = Some M' /\
    exception M' = Str "boom" /\
    pending_exception iso' = Str "boom" /\
    status M' = kErrored /\
    top_level_capability M' = Undefined /\
    promises iso' = promises linked_ab.
Proof.
  assert (HM : modules linked_ab !! 1 = Some (module_of linked_ab 1))
    by (vm_compute; reflexivity).
  assert (Hr : answer (host_table (evaluation_steps (module_of linked_ab 1))
                         (native_context linked_ab) 1
                         (after (SetStatus 1 kEvaluating) linked_ab))
               = Some None)
    by (vm_compute; reflexivity).
  assert (HM2 : modules (state_after_host host_table 1 linked_ab) !! 1
                = Some (module_of (state_after_host host_table 1 linked_ab) 1))
    by (vm_compute; reflexivity).
  assert (Hboom : scheduled_exception (state_after_host host_table 1 linked_ab)
                  = Str "boom")
    by (vm_compute; reflexivity).
  assert (Hunset : top_level_capability
                     (module_of (state_after_host host_table 1 linked_ab) 1)
                   = Undefined)
    by (vm_compute; reflexivity).
  assert (Hprom : promises (state_after_host host_table 1 linked_ab)
                  = promises linked_ab)
    by (vm_compute; reflexivity).
  destruct (Evaluate_host_throws host_table linked_ab 1 _ _
              (host_run_concrete _ _ _ _ _ HM Hr) HM2)
    as (iso' & M' & Hrun & HM' & Hexc & Hpend & _ & Hst & _ & _ & Hcap & Hp & _).
  exists iso', M'.
  split; [exact Hrun|]. split; [exact HM'|].
  split; [rewrite Hexc; exact Hboom|].
  split; [rewrite Hpend; exact Hboom|].
  split; [exact Hst|].
  split; [exact (Hcap Hunset)|].
  rewrite Hp. exact Hprom.
Defined.

Lemma SetExport_spec_witness :
  (exists iso',
     SetExport 0 "c" (Smi 1) linked_ab = Ok None iso' /\
     pending_exception iso' = JSError ReferenceError kModuleExportUndefined ["c"%string] /\
     cells iso' = cells linked_ab /\
     modules iso' = modules linked_ab)
  /\
  (exists iso',
     SetExport 0 "a" (Smi 42) linked_ab = Ok (Some true) iso' /\
     cells iso' !! 0 = Some (Smi 42) /\
     ResolveExport 0 "main" "a" here true iso' = Ok (Some 0) iso').
Proof.
  assert (HM : modules linked_ab !! 0 = Some (module_of linked_ab 0))
    by (vm_compute; reflexivity).
  split.
  - assert (Hmiss : IsCell (Lookup (exports (module_of linked_ab 0)) "c") = false)
      by (vm_compute; reflexivity).
    destruct (SetExport_spec linked_ab 0 _ "c" (Smi 1) HM) as (Hthrow & _).
    destruct (Hthrow Hmiss) as (iso' & Hrun & Hpend & Hcells & Hmods & _).
    exists iso'. repeat split; assumption.
  - assert (Ha : exports (module_of linked_ab 0) !! "a"%string = Some (CellRef 0))
      by (vm_compute; reflexivity).
    assert (Hlt : 0 < length (cells linked_ab))
      by (apply Nat.ltb_lt; vm_compute; reflexivity).
    destruct (SetExport_spec linked_ab 0 _ "a" (Smi 42) HM) as (_ & Hwrite).
    destruct (Hwrite 0 Ha Hlt) as (iso' & Hrun & _ & Hcell & _ & _ & _ & _ & Hres).
    exists iso'. split; [exact Hrun|]. split; [exact Hcell|]. apply Hres.
Defined.

Lemma later_ab_run :
  modules isolate_ab !! 0 = Some module_ab /\
  PrepareInstantiate 0 0 isolate_ab = Ok true instantiated_ab /\
  Forall (fun c => reinstantiates 0 c = false) later_calls /\
  perform_all host_table later_calls instantiated_ab = Ok tt later_ab.
Proof.
  split; [vm_compute; reflexivity|].
  split; [vm_compute; reflexivity|].
  split; [repeat constructor|].
  vm_compute. reflexivity.
Qed.

Lemma ResolveExport_spec_witness :
  (exists i,
     export_names module_ab !! i = Some "a"%string /\
     forall must,
       ResolveExport 0 "main" "a" here must later_ab
       = Ok (Some (length (cells isolate_ab) + i)) later_ab)
  /\
  (ResolveExport 0 "main" "zzz" here false later_ab = Ok None later_ab /\
   ResolveExport 0 "main" "zzz" here true later_ab
   = Ok None (with_pending
                (JSError SyntaxError kUnresolvableExport ["main"; "zzz"]%string)
                (Some here) later_ab)).
Proof.
  destruct later_ab_run as (HM & Hprep & Hcs & Hrun).
  split.
  - destruct (ResolveExport_spec host_table isolate_ab 0 0 module_ab
                instantiated_ab later_calls later_ab "a" "main" here
                (host_table_respects same_bindings) HM eq_refl Hprep Hcs Hrun)
      as (Hfound & _).
    apply Hfound. apply list_elem_of_here.
  - destruct (ResolveExport_spec host_table isolate_ab 0 0 module_ab
                instantiated_ab later_calls later_ab "zzz" "main" here
                (host_table_respects same_bindings) HM eq_refl Hprep Hcs Hrun)
      as (_ & Hmissing).
    apply Hmissing.
    apply (bool_decide_unpack ("zzz"%string ∉ export_names module_ab)).
    vm_compute. exact I.
Defined.

Lemma ResolveExport_idempotent_witness :
  exists c,
    ResolveExport 0 "main" "a" here true instantiated_ab
    = Ok (Some c) instantiated_ab /\
    ResolveExport 0 "other" "a" here false later_ab = Ok (Some c) later_ab.
Proof.
  destruct later_ab_run as (HM & Hprep & Hcs & Hrun).
  destruct (ResolveExport_idempotent host_table isolate_ab 0 0 module_ab
              instantiated_ab "a"
              (host_table_respects same_bindings) HM Hprep
              (list_elem_of_here _ _))
    as (c & Hc).
  exists c. split.
  - apply (Hc [] instantiated_ab "main"%string here true "main"%string here true).
    + constructor.
    + reflexivity.
  - apply (Hc later_calls later_ab "other"%string here false "main"%string here true
              Hcs Hrun).
Defined.

Lemma Evaluate_returns_host_value_witness :
  exists iso' cap,
    Evaluate host_table 0 linked_ab = Ok (Some (Smi 7)) iso' /\
    (top_level_capability <$> modules iso' !! 0) = Some cap /\
    Smi 7 <> cap /\
    (top_level_capability <$>
       modules (after (perform_all host_table
                         [CallSetExport 0 "a" (Smi 5); CallFinishInstantiate 0])
                      iso') !! 0)
    = Some cap.
Proof.
  assert (HM : modules linked_ab !! 0 = Some (module_of linked_ab 0))
    by (vm_compute; reflexivity).
  assert (Hr : answer (host_table (evaluation_steps (module_of linked_ab 0))
                         (native_context linked_ab) 0
                         (after (SetStatus 0 kEvaluating) linked_ab))
               = Some (Some (Smi 7)))
    by (vm_compute; reflexivity).
  assert (HM2 : modules (state_after_host host_table 0 linked_ab) !! 0
                = Some (module_of (state_after_host host_table 0 linked_ab) 0))
    by (vm_compute; reflexivity).
  destruct (Evaluate_returns_host_value host_table linked_ab 0 (Smi 7) _ _
              (host_table_respects same_capability)
              (host_run_concrete _ _ _ _ _ HM Hr) HM2)
    as (iso' & cap & Hrun & Hcap & Hne & _ & _ & Hlater).
  exists iso', cap.
  split; [exact Hrun|]. split; [exact Hcap|]. split; [exact (Hne eq_refl)|].
  assert (Hiso' : iso' = after (Evaluate host_table 0) linked_ab)
    by (unfold after; rewrite Hrun; reflexivity).
  apply (Hlater [CallSetExport 0 "a" (Smi 5); CallFinishInstantiate 0]);
    [repeat constructor|].
  rewrite Hiso'. vm_compute. reflexivity.
Defined.

(** C7, as stated, fails on the code: PrepareInstantiate run on an
    Unlinked module returns true and the module is still Unlinked, not
    Linking; and FinishInstantiate run on an Evaluated module takes it back
    to Linked. *)
Lemma PrepareInstantiate_makes_no_transition :
  (status <$> modules isolate_ab !! 0) = Some kUnlinked /\
  PrepareInstantiate 0 0 isolate_ab = Ok true instantiated_ab /\
  (status <$> modules instantiated_ab !! 0) = Some kUnlinked /\
  (status <$> modules instantiated_ab !! 0) <> Some kLinking /\
  exists iso',
    FinishInstantiate 0 (no_exception_isolate [set_status kEvaluated module_ab])
    = Ok true iso' /\
    (status <$> modules iso' !! 0) = Some kLinked /\
    status_rank kLinked < status_rank kEvaluated.
Proof.
  split; [vm_compute; reflexivity|].
  split; [vm_compute; reflexivity|].
  split; [vm_compute; reflexivity|].
  split; [vm_compute; discriminate|].
  eexists. split; [vm_compute; reflexivity|].
  split; [vm_compute; reflexivity|].
  apply Nat.ltb_lt. vm_compute. reflexivity.
Qed.

Lemma status_transitions_witness :
  (status <$> modules instantiated_ab !! 0) = Some kUnlinked /\
  (exists iso' M',
     FinishInstantiate 0 isolate_ab = Ok true iso' /\
     modules iso' !! 0 = Some M' /\
     status M' = kLinked).
Proof.
  assert (HM : modules isolate_ab !! 0 = Some module_ab)
    by (vm_compute; reflexivity).
  assert (Hprep : PrepareInstantiate 0 0 isolate_ab = Ok true instantiated_ab)
    by (vm_compute; reflexivity).
  destruct (status_transitions host_table isolate_ab 0 0 module_ab HM)
    as (Hkeep & (iso' & M' & Hrun & HM' & Hst & _) & _).
  split.
  - apply (Hkeep true instantiated_ab Hprep).
  - exists iso', M'. repeat split; assumption.
Defined.

(** C2, as stated, fails on the code: in scenario A the top-level
    capability is fulfilled with undefined, not with 7. *)
Lemma scenario_A_capability_is_undefined :
  exists iso',
    (instantiate 0;; Evaluate host_table 0) isolate_ab = Ok (Some (Smi 7)) iso' /\
    capability_state iso' 0 = Some (Fulfilled Undefined) /\
    capability_state iso' 0 <> Some (Fulfilled (Smi 7)).
Proof.
  exists (after (instantiate 0;; Evaluate host_table 0) isolate_ab).
  split; [vm_compute; reflexivity|].
  split; [vm_compute; reflexivity|].
  vm_compute. discriminate.
Qed.

Lemma scenario_A_witness :
  exists iso' c p,
    (instantiate 0;; Evaluate host_table 0) isolate_ab = Ok (Some (Smi 7)) iso' /\
    (forall spec loc must,
       ResolveExport 0 spec "a" loc must iso' = Ok (Some c) iso') /\
    cells iso' !! c = Some (Smi 42) /\
    (top_level_capability <$> modules iso' !! 0) = Some (JSPromiseRef p) /\
    promises isolate_ab !! p = None /\
    capability_state iso' 0 = Some (Fulfilled Undefined).
Proof.
  assert (HM : modules isolate_ab !! 0 = Some module_ab)
    by (vm_compute; reflexivity).
  exact (scenario_A host_table isolate_ab 0 module_ab HM eq_refl eq_refl eq_refl).
Defined.

(** * Further properties of synthetic-module.cc *)

(** ** SetExportStrict *)



(** X2: SetExportStrict returns exactly when SetExport answers Just(true),
    and then leaves the same state: the strict variant adds death, never a
    different effect. *)
Theorem SetExportStrict_iff_SetExport m name v iso iso' :
  SetExportStrict m name v iso = Ok tt iso' <->
  SetExport m name v iso = Ok (Some true) iso'.
Proof.
  unfold SetExportStrict. rewrite bind_run.
  destruct (module_at m iso) as [M iso0|why] eqn:Hat.
  - apply module_at_inv in Hat as [-> HM]. cbv zeta.
    destruct (IsCell (Lookup (exports M) name)) eqn:Hc.
    + simpl. rewrite bind_run. simpl. rewrite bind_run.
      destruct (SetExport m name v iso) as [[[|]|] iso1|why];
        cbv [mbind Run_bind mret Run_ret CHECK FATAL FromJust];
        split; intros H; try discriminate; injection H as ->; reflexivity.
    + simpl. rewrite (SetExport_missing m name v iso M HM Hc).
      split; intros H; discriminate.
  - split; [intros H; discriminate|].
    intros H. unfold SetExport in H. rewrite bind_run, Hat in H. discriminate.
Qed.

(** ** SetExport *)

(** X3: a second SetExport to the same name overrides the first one
    completely: the two calls in a row have the outcome of the second call
    alone, whether the name is bound (last write wins) or not (the same
    error is pending). *)
Theorem SetExport_last_write_wins m name v1 v2 iso :
  (SetExport m name v1;; SetExport m name v2) iso = SetExport m name v2 iso.
Proof.
  rewrite bind_run.
  destruct (modules iso !! m) as [M|] eqn:HM.
  - destruct (IsCell (Lookup (exports M) name)) eqn:Hc.
    + unfold Lookup in Hc.
      destruct (exports M !! name) as [[| | | |c| |]|] eqn:Hname;
        try discriminate.
      destruct (decide (c < length (cells iso))) as [Hlt|Hge].
      * rewrite (SetExport_found m name v1 iso M c HM Hname Hlt).
        rewrite (SetExport_found m name v2 iso M c HM Hname Hlt).
        rewrite (SetExport_found m name v2 _ M c); [|exact HM|exact Hname|].
        -- unfold with_cells. simpl. rewrite list_insert_insert_eq. reflexivity.
        -- simpl. rewrite length_insert. exact Hlt.
      * assert (Hdead : forall v, SetExport m name v iso = Abort InvalidHandle).
        { intros v. unfold SetExport.
          rewrite (bind_Ok _ _ _ _ _ (module_at_run _ _ _ HM)).
          unfold Lookup. rewrite Hname. simpl. rewrite bind_run. simpl.
          rewrite bind_run. unfold Cell_set_value.
          destruct (decide (c < length (cells iso))); [contradiction|reflexivity]. }
        rewrite !Hdead. reflexivity.
    + rewrite (SetExport_missing m name v1 iso M HM Hc).
      rewrite (SetExport_missing m name v2 iso M HM Hc).
      erewrite SetExport_missing; [reflexivity|exact HM|exact Hc].
  - assert (Hdead : forall v, SetExport m name v iso = Abort InvalidHandle).
    { intros v. unfold SetExport. rewrite bind_run. unfold module_at.
      rewrite HM. reflexivity. }
    rewrite !Hdead. reflexivity.
Qed.

(** X4: SetExport and a lenient ResolveExport agree on which names are
    missing: SetExport throws (answers Nothing) exactly for the names that
    ResolveExport with must_resolve false does not find. *)
Theorem SetExport_throws_iff_ResolveExport_misses iso m M name v spec loc :
  modules iso !! m = Some M ->
  (exists iso', SetExport m name v iso = Ok None iso') <->
  ResolveExport m spec name loc false iso = Ok None iso.
Proof.
  intros HM.
  destruct (IsCell (Lookup (exports M) name)) eqn:Hc.
  - unfold Lookup in Hc.
    destruct (exports M !! name) as [[| | | |c| |]|] eqn:Hname; try discriminate.
    rewrite (ResolveExport_found m spec name loc false iso M c HM Hname).
    split; [|intros H; discriminate].
    intros [iso' H]. unfold SetExport in H.
    rewrite (bind_Ok _ _ _ _ _ (module_at_run _ _ _ HM)) in H.
    unfold Lookup in H. rewrite Hname in H. simpl in H.
    rewrite bind_run in H. simpl in H. rewrite bind_run in H.
    destruct (Cell_set_value c v iso); discriminate.
  - rewrite (ResolveExport_missing m spec name loc false iso M HM Hc).
    rewrite (SetExport_missing m name v iso M HM Hc).
    split; [reflexivity|]. intros _. eexists. reflexivity.
Qed.

Lemma SetExport_throws_iff_ResolveExport_misses_witness :
  (exists iso', SetExport 0 "c" (Smi 1) linked_ab = Ok None iso') /\
  ResolveExport 0 "main" "c" here false linked_ab = Ok None linked_ab.
Proof.
  assert (HM : modules linked_ab !! 0 = Some (module_of linked_ab 0))
    by (vm_compute; reflexivity).
  assert (Hmiss : ResolveExport 0 "main" "c" here false linked_ab
                  = Ok None linked_ab)
    by (vm_compute; reflexivity).
  split; [|exact Hmiss].
  apply (SetExport_throws_iff_ResolveExport_misses linked_ab 0 _ "c" (Smi 1)
           "main" here HM).
  exact Hmiss.
Defined.

(** ** ResolveExport *)

(** X5: ResolveExport never writes to the heap: whenever it returns, the
    cells, the modules, the promises and the journal are those it found;
    the whole state is unchanged unless it threw, and it throws only when
    must_resolve is set and it answers the empty handle.  A handle it
    answers is the Cell the export table holds for the name. *)
Theorem ResolveExport_reads_only m spec name loc must iso r iso' :
  ResolveExport m spec name loc must iso = Ok r iso' ->
  cells iso' = cells iso /\
  modules iso' = modules iso /\
  promises iso' = promises iso /\
  journal iso' = journal iso /\
  (iso' = iso \/
   must = true /\ r = None /\
   pending_exception iso' = JSError SyntaxError kUnresolvableExport [spec; name]) /\
  (forall c, r = Some c ->
             iso' = iso /\
             (exports <$> modules iso !! m) ≫= (fun t => t !! name)
             = Some (CellRef c)).
Proof.
  unfold ResolveExport. intros H.
  apply bind_inv in H as (M & iso0 & Hat & H).
  apply module_at_inv in Hat as [-> HM]. cbv zeta in H.
  unfold Lookup in H.
  destruct (exports M !! name) as [[| | | |c| |]|] eqn:Hname;
    cbv [default id IsCell negb Cell_cast mbind Run_bind mret Run_ret ThrowAt
         NewSyntaxError] in H;
    try (destruct must; simpl in H; injection H as <- <-;
         do 4 (split; [reflexivity|]);
         (split; [first [left; reflexivity
                        |right; split; [reflexivity|split; reflexivity]]|]);
         intros c' Hc'; discriminate).
  injection H as <- <-. do 4 (split; [reflexivity|]).
  split; [left; reflexivity|].
  intros c' [= <-]. split; [reflexivity|]. rewrite HM. simpl. exact Hname.
Qed.

Lemma ResolveExport_reads_only_witness :
  cells (after (ResolveExport 0 "main" "c" here true) linked_ab)
  = cells linked_ab /\
  pending_exception (after (ResolveExport 0 "main" "c" here true) linked_ab)
  = JSError SyntaxError kUnresolvableExport ["main"; "c"]%string.
Proof.
  assert (Hrun : ResolveExport 0 "main" "c" here true linked_ab
                 = Ok None (after (ResolveExport 0 "main" "c" here true) linked_ab))
    by (vm_compute; reflexivity).
  destruct (ResolveExport_reads_only 0 "main" "c" here true linked_ab None _ Hrun)
    as (Hcells & _ & _ & _ & Hthrow & _).
  split; [exact Hcells|].
  destruct Hthrow as [Hsame|(_ & _ & Hpend)]; [|exact Hpend].
  exfalso.
  assert (Hne : pending_exception
                  (after (ResolveExport 0 "main" "c" here true) linked_ab)
                <> pending_exception linked_ab)
    by (vm_compute; discriminate).
  apply Hne. rewrite Hsame. reflexivity.
Defined.

(** ** PrepareInstantiate *)

(** X6: instantiating a module a second time is fatal as soon as it
    declares an export: the CHECK of the first iteration finds the Cell the
    first instantiation bound.  A module that declares no export can be
    instantiated again, and nothing is allocated for it. *)
Theorem PrepareInstantiate_twice iso m ctx ctx' M b iso1 :
  modules iso !! m = Some M ->
  PrepareInstantiate m ctx iso = Ok b iso1 ->
  (export_names M <> [] ->
   PrepareInstantiate m ctx' iso1 = Abort CheckFailed)
  /\
  (export_names M = [] ->
   cells iso1 = cells iso /\
   exists iso2,
     PrepareInstantiate m ctx' iso1 = Ok true iso2 /\ cells iso2 = cells iso).
Proof.
  intros HM Hprep.
  destruct (PrepareInstantiate_inv _ _ _ _ _ _ HM Hprep)
    as (t & -> & -> & Hbound & Hframe).
  set (iso1 := store_module m (set_exports_field t M) (StoreExports m) _).
  assert (HM1 : modules iso1 !! m = Some (set_exports_field t M))
    by (eapply lookup_store_module_eq; exact HM).
  split.
  - intros Hnames. apply (PrepareInstantiate_Abort m ctx' iso1 _ HM1).
    intros [_ Hfree]. simpl in Hfree.
    destruct (export_names M) as [|name rest] eqn:Hn; [contradiction|].
    specialize (Hfree name (list_elem_of_here _ _)).
    unfold Lookup in Hfree. rewrite (Hbound 0 name eq_refl) in Hfree.
    discriminate.
  - intros Hnames.
    assert (Hcells : cells iso1 = cells iso).
    { simpl. rewrite Hnames. apply app_nil_r. }
    split; [exact Hcells|].
    assert (Hnd : NoDup (export_names (set_exports_field t M)))
      by (simpl; rewrite Hnames; constructor).
    assert (Hfree : forall n, n ∈ export_names (set_exports_field t M) ->
                              Lookup (exports (set_exports_field t M)) n = TheHole).
    { simpl. rewrite Hnames. intros n Hn. apply elem_of_nil in Hn. contradiction. }
    destruct (PrepareInstantiate_Ok m ctx' iso1 _ HM1 Hnd Hfree) as (t' & Hrun & _).
    eexists. split; [exact Hrun|].
    change (cells iso1 ++ replicate (length (export_names M)) Undefined
            = cells iso).
    rewrite Hnames. simpl. rewrite app_nil_r. exact Hcells.
Qed.

Lemma PrepareInstantiate_twice_witness :
  PrepareInstantiate 0 0 instantiated_ab = Abort CheckFailed /\
  exists iso2,
    PrepareInstantiate 0 0
      (after (PrepareInstantiate 0 0) (no_exception_isolate [fresh_module [] 0]))
    = Ok true iso2 /\
    cells iso2 = [].
Proof.
  split.
  - assert (HM : modules isolate_ab !! 0 = Some module_ab)
      by (vm_compute; reflexivity).
    assert (Hprep : PrepareInstantiate 0 0 isolate_ab = Ok true instantiated_ab)
      by (vm_compute; reflexivity).
    destruct (PrepareInstantiate_twice isolate_ab 0 0 0 module_ab true
                instantiated_ab HM Hprep) as (Hdie & _).
    apply Hdie. discriminate.
  - assert (HM : modules (no_exception_isolate [fresh_module [] 0]) !! 0
                 = Some (fresh_module [] 0))
      by (vm_compute; reflexivity).
    assert (Hprep : PrepareInstantiate 0 0 (no_exception_isolate [fresh_module [] 0])
                    = Ok true (after (PrepareInstantiate 0 0)
                                 (no_exception_isolate [fresh_module [] 0])))
      by (vm_compute; reflexivity).
    destruct (PrepareInstantiate_twice _ 0 0 0 _ true _ HM Hprep) as (_ & Hagain).
    destruct (Hagain eq_refl) as (_ & iso2 & Hrun & Hcells).
    exists iso2. split; [exact Hrun|exact Hcells].
Defined.

(** X7: instantiation gives distinct declared names distinct Cells, so the
    exports are independent: right after PrepareInstantiate, SetExport of
    one declared name changes the Cell ResolveExport answers for that name
    and leaves the Cell of any other declared name holding undefined. *)
Theorem fresh_exports_are_independent iso m ctx M iso1 n1 n2 v :
  modules iso !! m = Some M ->
  PrepareInstantiate m ctx iso = Ok true iso1 ->
  n1 ∈ export_names M -> n2 ∈ export_names M -> n1 <> n2 ->
  exists c1 c2 iso2,
    c1 <> c2 /\
    SetExport m n1 v iso1 = Ok (Some true) iso2 /\
    (forall spec loc must,
       ResolveExport m spec n1 loc must iso2 = Ok (Some c1) iso2 /\
       ResolveExport m spec n2 loc must iso2 = Ok (Some c2) iso2) /\
    cells iso2 !! c1 = Some v /\
    cells iso2 !! c2 = Some Undefined.
Proof.
  intros HM Hprep Hin1 Hin2 Hne.
  destruct (PrepareInstantiate_inv _ _ _ _ _ _ HM Hprep)
    as (t & _ & -> & Hbound & _).
  apply list_elem_of_lookup in Hin1 as [i1 Hi1].
  apply list_elem_of_lookup in Hin2 as [i2 Hi2].
  assert (Hi : i1 <> i2) by (intros ->; congruence).
  pose proof (lookup_lt_Some _ _ _ Hi1) as Hlt1.
  pose proof (lookup_lt_Some _ _ _ Hi2) as Hlt2.
  set (base := length (cells iso)) in *.
  set (iso1 := store_module m (set_exports_field t M) (StoreExports m) _).
  assert (HM1 : modules iso1 !! m = Some (set_exports_field t M))
    by (eapply lookup_store_module_eq; exact HM).
  assert (Hlen : length (cells iso1) = base + length (export_names M)).
  { simpl. rewrite length_app, length_replicate. reflexivity. }
  exists (base + i1), (base + i2). eexists.
  split; [lia|].
  split.
  { apply (SetExport_found m n1 v iso1 _ (base + i1) HM1 (Hbound i1 n1 Hi1)). lia. }
  split.
  { intros spec loc must. split; eapply ResolveExport_found;
      first [exact HM1|apply (Hbound _ _ Hi1)|apply (Hbound _ _ Hi2)]. }
  split.
  { simpl. apply list_lookup_insert_eq. rewrite length_app, length_replicate.
    fold base. lia. }
  simpl. rewrite list_lookup_insert_ne by lia.
  rewrite lookup_app_r by (fold base; lia). fold base.
  apply lookup_replicate_2. lia.
Qed.

Lemma fresh_exports_are_independent_witness :
  exists c1 c2 iso2,
    c1 <> c2 /\
    SetExport 0 "b" (Smi 9) instantiated_ab = Ok (Some true) iso2 /\
    cells iso2 !! c1 = Some (Smi 9) /\
    cells iso2 !! c2 = Some Undefined.
Proof.
  assert (HM : modules isolate_ab !! 0 = Some module_ab)
    by (vm_compute; reflexivity).
  assert (Hprep : PrepareInstantiate 0 0 isolate_ab = Ok true instantiated_ab)
    by (vm_compute; reflexivity).
  assert (Hb : "b"%string ∈ export_names module_ab)
    by (apply list_elem_of_further, list_elem_of_here).
  assert (Ha : "a"%string ∈ export_names module_ab)
    by apply list_elem_of_here.
  destruct (fresh_exports_are_independent isolate_ab 0 0 module_ab
              instantiated_ab "b" "a" (Smi 9) HM Hprep Hb Ha)
    as (c1 & c2 & iso2 & Hne & Hrun & _ & H1 & H2).
  { discriminate. }
  exists c1, c2, iso2. repeat split; assumption.
Defined.

(** ** Evaluate *)

(** X8: Evaluate passes on the answer of the host procedure, a value or
    the empty handle, and itself writes no Cell and no export table: after
    it, the cells are those the host left, every other module is as the
    host left it, and the evaluated module keeps the export names, the
    export table and the evaluation steps the host left. *)
Theorem Evaluate_keeps_cells_and_bindings F iso m r iso2 M2 :
  host_run F m iso r iso2 ->
  modules iso2 !! m = Some M2 ->
  exists iso' M',
    Evaluate F m iso = Ok r iso' /\
    cells iso' = cells iso2 /\
    (forall m', m' <> m -> modules iso' !! m' = modules iso2 !! m') /\
    modules iso' !! m = Some M' /\
    export_names M' = export_names M2 /\
    exports M' = exports M2 /\
    evaluation_steps M' = evaluation_steps M2.
Proof.
  intros Hhost HM2.
  assert (Hlt : m < length (modules iso2)) by (eapply lookup_lt_Some, HM2).
  destruct r as [v|].
  - pose proof (Evaluate_returns_run F m iso v iso2 M2 Hhost HM2) as Hev.
    destruct (IsJSPromise v); eexists; eexists;
      (split; [exact Hev|]);
      (split; [reflexivity|]);
      (split; [intros m' Hne; simpl;
               rewrite !list_lookup_insert_ne by congruence; reflexivity|]);
      (split; [eapply lookup_store_module_eq;
               eapply lookup_store_module_eq, HM2|]);
      repeat split.
  - eexists. eexists.
    split; [apply (Evaluate_throws_run F m iso iso2 M2 Hhost HM2)|].
    split; [reflexivity|].
    split.
    { intros m' Hne. simpl.
      rewrite !list_lookup_insert_ne by congruence. reflexivity. }
    split.
    { eapply lookup_store_module_eq. eapply lookup_store_module_eq, HM2. }
    repeat split.
Qed.

Lemma Evaluate_keeps_cells_and_bindings_witness :
  exists iso' M',
    Evaluate host_table 0 linked_ab = Ok (Some (Smi 7)) iso' /\
    cells iso' = cells (state_after_host host_table 0 linked_ab) /\
    modules iso' !! 0 = Some M' /\
    exports M' = exports (module_of (state_after_host host_table 0 linked_ab) 0).
Proof.
  assert (HM : modules linked_ab !! 0 = Some (module_of linked_ab 0))
    by (vm_compute; reflexivity).
  assert (Hr : answer (host_table (evaluation_steps (module_of linked_ab 0))
                         (native_context linked_ab) 0
                         (after (SetStatus 0 kEvaluating) linked_ab))
               = Some (Some (Smi 7)))
    by (vm_compute; reflexivity).
  assert (HM2 : modules (state_after_host host_table 0 linked_ab) !! 0
                = Some (module_of (state_after_host host_table 0 linked_ab) 0))
    by (vm_compute; reflexivity).
  destruct (Evaluate_keeps_cells_and_bindings host_table linked_ab 0 _ _ _
              (host_run_concrete _ _ _ _ _ HM Hr) HM2)
    as (iso' & M' & Hrun & Hcells & _ & HM' & _ & Hexp & _).
  exists iso', M'. repeat split; assumption.
Defined.

(** * Properties of the Turboshaft representations *)

(** X9: a register representation survives the trip through its machine
    representation: FromMachineRepresentation answers, and with the
    representation one started from; so machine_representation is
    injective. *)
Theorem machine_representation_round_trip rep rep' :
  RegisterRepresentation.FromMachineRepresentation
    (RegisterRepresentation.machine_representation rep) = Some rep /\
  (RegisterRepresentation.machine_representation rep
   = RegisterRepresentation.machine_representation rep' -> rep = rep').
Proof.
  assert (Hrt : forall r,
             RegisterRepresentation.FromMachineRepresentation
               (RegisterRepresentation.machine_representation r) = Some r)
    by (intros []; reflexivity).
  split; [apply Hrt|].
  intros Heq. pose proof (Hrt rep) as H1. rewrite Heq, Hrt in H1.
  congruence.
Qed.

(** X10: FromRegisterRepresentation is a right inverse of
    ToRegisterRepresentation on every register representation it answers
    for, it answers for all of them but Compressed, and on a word register
    it yields a word memory representation of the signedness asked for. *)
Theorem FromRegisterRepresentation_round_trip repr is_signed :
  (forall m,
     MemoryRepresentation.FromRegisterRepresentation repr is_signed = Some m ->
     MemoryRepresentation.ToRegisterRepresentation m = repr) /\
  (MemoryRepresentation.FromRegisterRepresentation repr is_signed = None <->
   repr = RegisterRepresentation.Compressed) /\
  (RegisterRepresentation.IsWord repr = true ->
   exists m,
     MemoryRepresentation.FromRegisterRepresentation repr is_signed = Some m /\
     MemoryRepresentation.IsWord m = true /\
     MemoryRepresentation.IsSigned m = Some is_signed).
Proof.
  split; [|split].
  - intros m. destruct repr, is_signed; simpl; intros [= <-]; reflexivity.
  - unfold RegisterRepresentation.Compressed.
    destruct repr, is_signed; simpl; split; intros H;
      first [reflexivity|discriminate].
  - destruct repr, is_signed; simpl; intros H; try discriminate;
      eexists; repeat split.
Qed.

(** X11: a memory representation can always be taken to its register
    representation and back (ToRegisterRepresentation never answers
    Compressed): the result has the same register representation and is
    never narrower; it is the representation one started from when that
    one is at least 32 bits wide and of the signedness asked for. *)
Theorem ToRegisterRepresentation_and_back kTaggedSizeLog2 m is_signed :
  exists m',
    MemoryRepresentation.FromRegisterRepresentation
      (MemoryRepresentation.ToRegisterRepresentation m) is_signed = Some m' /\
    MemoryRepresentation.ToRegisterRepresentation m'
    = MemoryRepresentation.ToRegisterRepresentation m /\
    (MemoryRepresentation.SizeInBytesLog2 kTaggedSizeLog2 m
     <= MemoryRepresentation.SizeInBytesLog2 kTaggedSizeLog2 m')%Z /\
    (MemoryRepresentation.IsSigned m = Some is_signed ->
     (2 <= MemoryRepresentation.SizeInBytesLog2 kTaggedSizeLog2 m)%Z ->
     m' = m).
Proof.
  destruct m, is_signed; simpl; eexists;
    (split; [reflexivity|]); (split; [reflexivity|]);
    (split; [simpl; lia|]); simpl; intros H1 H2;
    first [reflexivity|discriminate|lia].
Qed.

(** X12: the two FromMachineRepresentation functions agree: for a machine
    representation both answer for, the register representation of the
    memory representation is the register representation. *)
Theorem FromMachineRepresentation_agree rep m r :
  MemoryRepresentation.FromMachineRepresentation rep = Some m ->
  RegisterRepresentation.FromMachineRepresentation rep = Some r ->
  MemoryRepresentation.ToRegisterRepresentation m = r.
Proof.
  destruct rep; simpl; intros [= <-]; intros [= <-]; reflexivity.
Qed.

Lemma FromMachineRepresentation_agree_witness :
  MemoryRepresentation.FromMachineRepresentation MachineRepresentation.kWord16
  = Some MemoryRepresentation.Uint16 /\
  RegisterRepresentation.FromMachineRepresentation MachineRepresentation.kWord16
  = Some RegisterRepresentation.Word32 /\
  MemoryRepresentation.ToRegisterRepresentation MemoryRepresentation.Uint16
  = RegisterRepresentation.Word32.
Proof.
  split; [reflexivity|]. split; [reflexivity|].
  apply (FromMachineRepresentation_agree MachineRepresentation.kWord16);
    reflexivity.
Defined.

(** X13: the UNREACHABLE arms are guarded by IsWord: IsSigned of a memory
    representation and MaxUnsignedValue of a register representation answer
    exactly on the word representations; IsWord and IsFloat exclude each
    other, and a memory representation is a word exactly when it is loaded
    into a word register, the sandboxed pointer apart. *)
Theorem IsWord_guards_the_unreachable_arms m r :
  (is_Some (MemoryRepresentation.IsSigned m) <->
   MemoryRepresentation.IsWord m = true) /\
  (is_Some (RegisterRepresentation.MaxUnsignedValue r) <->
   RegisterRepresentation.IsWord r = true) /\
  (RegisterRepresentation.IsWord r && RegisterRepresentation.IsFloat r = false) /\
  (m <> MemoryRepresentation.SandboxedPointer ->
   MemoryRepresentation.IsWord m
   = RegisterRepresentation.IsWord
       (MemoryRepresentation.ToRegisterRepresentation m)).
Proof.
  split; [|split; [|split]].
  - destruct m; simpl; split; intros H;
      first [reflexivity|discriminate|eexists; reflexivity|destruct H; discriminate].
  - destruct r; simpl; split; intros H;
      first [reflexivity|discriminate|eexists; reflexivity|destruct H; discriminate].
  - destruct r; reflexivity.
  - destruct m; simpl; intros H; first [reflexivity|contradiction].
Qed.

(** X14: a memory representation is tagged exactly when it is loaded into
    a Tagged register; whatever can be a tagged pointer is tagged; and the
    store representation is Compressed exactly for a tagged value under
    pointer compression, otherwise the register representation, so that
    under pointer compression it is never Tagged and
    FromRegisterRepresentation is unreachable on it exactly for tagged
    values. *)
Theorem tagged_representations V8_COMPRESS_POINTERS m is_signed :
  (MemoryRepresentation.IsTagged m = true <->
   MemoryRepresentation.ToRegisterRepresentation m
   = RegisterRepresentation.Tagged) /\
  (MemoryRepresentation.CanBeTaggedPointer m = true ->
   MemoryRepresentation.IsTagged m = true) /\
  MemoryRepresentation.ToRegisterRepresentationForStore V8_COMPRESS_POINTERS m
  = (if V8_COMPRESS_POINTERS && MemoryRepresentation.IsTagged m
     then RegisterRepresentation.Compressed
     else MemoryRepresentation.ToRegisterRepresentation m) /\
  (V8_COMPRESS_POINTERS = true ->
   MemoryRepresentation.ToRegisterRepresentationForStore V8_COMPRESS_POINTERS m
   <> RegisterRepresentation.Tagged) /\
  (MemoryRepresentation.FromRegisterRepresentation
     (MemoryRepresentation.ToRegisterRepresentationForStore
        V8_COMPRESS_POINTERS m) is_signed = None <->
   V8_COMPRESS_POINTERS = true /\ MemoryRepresentation.IsTagged m = true).
Proof.
  split; [|split; [|split; [|split]]].
  - destruct m; simpl; split; intros H; first [reflexivity|discriminate].
  - destruct m; simpl; intros H; first [reflexivity|discriminate].
  - destruct V8_COMPRESS_POINTERS, m; reflexivity.
  - intros ->. destruct m; vm_compute; discriminate.
  - destruct V8_COMPRESS_POINTERS, m, is_signed; vm_compute;
      split; intros H; first [discriminate|split; reflexivity|destruct H; discriminate].
Qed.

(** X15: the limits of a word representation are those of its bit width
    w: the largest unsigned value is 2^w - 1, the signed range runs from
    -2^(w-1) to 2^(w-1) - 1, and the register representation it extends
    answers the same largest unsigned value. *)
Theorem word_limits kSystemPointerSize (rep : WordRepresentation.Enum) :
  let w := RegisterRepresentation.bit_width kSystemPointerSize
             (WordRepresentation.to_register rep) in
  WordRepresentation.MaxUnsignedValue rep = (2 ^ w - 1)%Z /\
  WordRepresentation.MinSignedValue rep = (- 2 ^ (w - 1))%Z /\
  WordRepresentation.MaxSignedValue rep = (2 ^ (w - 1) - 1)%Z /\
  RegisterRepresentation.MaxUnsignedValue (WordRepresentation.to_register rep)
  = Some (WordRepresentation.MaxUnsignedValue rep) /\
  WordRepresentation.of_register (WordRepresentation.to_register rep) = Some rep.
Proof.
  destruct rep; vm_compute; repeat split.
Qed.

(** X16: a value that is not tagged fits the register it is loaded into:
    its size is 2 to the SizeInBytesLog2, without wrap-around of the
    uint8_t, and eight times that is at most the bit width of its register
    representation. *)
Theorem untagged_size_fits_register kSystemPointerSize kTaggedSizeLog2 m :
  MemoryRepresentation.IsTagged m = false ->
  MemoryRepresentation.SizeInBytes kTaggedSizeLog2 m
  = (2 ^ MemoryRepresentation.SizeInBytesLog2 kTaggedSizeLog2 m)%Z /\
  (8 * MemoryRepresentation.SizeInBytes kTaggedSizeLog2 m
   <= RegisterRepresentation.bit_width kSystemPointerSize
        (MemoryRepresentation.ToRegisterRepresentation m))%Z.
Proof.
  destruct m; simpl; intros H; try discriminate;
    vm_compute; split; first [reflexivity|discriminate].
Qed.

Lemma untagged_size_fits_register_witness :
  MemoryRepresentation.IsTagged MemoryRepresentation.Int16 = false /\
  MemoryRepresentation.SizeInBytes 2 MemoryRepresentation.Int16 = 2%Z /\
  (8 * MemoryRepresentation.SizeInBytes 2 MemoryRepresentation.Int16
   <= RegisterRepresentation.bit_width 8
        (MemoryRepresentation.ToRegisterRepresentation
           MemoryRepresentation.Int16))%Z.
Proof.
  split; [reflexivity|].
  exact (untagged_size_fits_register 8 2 MemoryRepresentation.Int16 eq_refl).
Defined.

(** X17: the MultiSwitch encoding of a register representation is below
    max_value, so its DCHECK cannot fail, and it is injective; so are the
    hash values of register and of memory representations. *)
Theorem encode_is_bounded_and_injective (a b : RegisterRepresentation.Enum)
    (c d : MemoryRepresentation.Enum) :
  (0 <= RegisterRepresentation.encode a < RegisterRepresentation.max_value)%Z /\
  (RegisterRepresentation.encode a = RegisterRepresentation.encode b -> a = b) /\
  (RegisterRepresentation.hash_value a = RegisterRepresentation.hash_value b ->
   a = b) /\
  (MemoryRepresentation.hash_value c = MemoryRepresentation.hash_value d ->
   c = d).
Proof.
  split; [|split; [|split]].
  - unfold RegisterRepresentation.max_value. destruct a; simpl; lia.
  - destruct a, b; simpl; intros H; first [reflexivity|discriminate].
  - destruct a, b; simpl; intros H; first [reflexivity|discriminate].
  - destruct c, d; simpl; intros H; first [reflexivity|discriminate].
Qed.

(** X18: on a target whose pointers are 4 or 8 bytes, the pointer-sized
    representations are consistent: the register one is a word, so the
    DCHECK of WordRepresentation::PointerSized holds and the construction
    answers; its bit width is eight times the pointer size; the memory one
    is loaded into the register one and is as many bytes as a pointer. *)
Theorem PointerSized_is_consistent kSystemPointerSize kTaggedSizeLog2 :
  kSystemPointerSize = 4%Z \/ kSystemPointerSize = 8%Z ->
  RegisterRepresentation.IsWord
    (RegisterRepresentation.PointerSized kSystemPointerSize) = true /\
  (exists w,
     WordRepresentation.PointerSized kSystemPointerSize = Some w /\
     WordRepresentation.to_register w
     = RegisterRepresentation.PointerSized kSystemPointerSize /\
     WordRepresentation.MaxUnsignedValue w
     = (2 ^ (8 * kSystemPointerSize) - 1)%Z) /\
  RegisterRepresentation.bit_width kSystemPointerSize
    (RegisterRepresentation.PointerSized kSystemPointerSize)
  = (8 * kSystemPointerSize)%Z /\
  MemoryRepresentation.ToRegisterRepresentation
    (MemoryRepresentation.PointerSized kSystemPointerSize)
  = RegisterRepresentation.PointerSized kSystemPointerSize /\
  MemoryRepresentation.SizeInBytes kTaggedSizeLog2
    (MemoryRepresentation.PointerSized kSystemPointerSize)
  = kSystemPointerSize.
Proof.
  intros [-> | ->]; vm_compute; repeat split; eexists; repeat split.
Qed.

Lemma PointerSized_is_consistent_witness :
  (8 = 4 \/ 8 = 8)%Z /\
  RegisterRepresentation.PointerSized 8 = RegisterRepresentation.Word64 /\
  MemoryRepresentation.SizeInBytes 3 (MemoryRepresentation.PointerSized 8) = 8%Z.
Proof.
  split; [right; reflexivity|]. split; [reflexivity|].
  destruct (PointerSized_is_consistent 8 3 (or_intror eq_refl))
    as (_ & _ & _ & _ & Hsize).
  exact Hsize.
Defined.
